(** * Flow archive Access API server: a model of the [Server] of package [api]

    The server answers the Flow Access API from a read-only, height-keyed
    index ([archive.Reader]) and a script invoker.  Every endpoint is a Go
    method returning [(response, error)]; the model keeps that shape, keeps
    the [fmt.Errorf] format strings of the source, and adds a third outcome
    for a run-time panic (dereferencing a nil pointer).

    Functions of the libraries the server calls ([flow-go], [cadence],
    [protobuf]) are not part of the repository: they are fields of the
    class [FlowLib], and every statement below holds for all of them. *)

From Stdlib Require Import ZArith List String Lia Bool.
From ExtLib Require Import Structures.Monad.
Import ListNotations.
Import MonadNotation.

Local Open Scope string_scope.
Local Open Scope list_scope.
Local Open Scope Z_scope.
Local Open Scope monad_scope.

Set Implicit Arguments.

(** ** Machine integers *)

(** [uint64] values are integers in [0, 2^64); [height++] wraps around. *)
Definition uint64_modulus : Z := 2 ^ 64.
Definition MaxUint64 : Z := uint64_modulus - 1.
Definition is_uint64 (z : Z) : Prop := 0 <= z <= MaxUint64.
Definition uint64_incr (z : Z) : Z := (z + 1) mod uint64_modulus.

(** ** Go values *)

Definition bytes := list Byte.byte.

(** [flow.Identifier] is a [[32]byte]; [id[:]] is the same bytes as a slice. *)
Definition Identifier := bytes.
Definition slice_of (id : Identifier) : bytes := id.

(** Arguments interpolated by a format string ([%d], [%x]). *)
Inductive fmtarg : Type :=
| ArgUint (z : Z)
| ArgBytes (b : bytes).

(** Go [error] values: [errors.New msg], and [fmt.Errorf format args... err]
    whose [%w] verb wraps [err]; [fmt_Errorf_nil] is the same call when the
    [err] handed to [%w] is nil. *)
Inductive error : Type :=
| errors_New (msg : string)
| fmt_Errorf (format : string) (args : list fmtarg) (wrapped : error)
| fmt_Errorf_nil (format : string) (args : list fmtarg).

(** [errors.Unwrap]. *)
Definition errors_Unwrap (e : error) : option error :=
  match e with
  | errors_New _ => None
  | fmt_Errorf _ _ w => Some w
  | fmt_Errorf_nil _ _ => None
  end.

(** A library or index call returning [(T, error)]. *)
Inductive result (A : Type) : Type :=
| Success (a : A)
| Failure (e : error).
Arguments Success {A} a.
Arguments Failure {A} e.

(** What a server method does: return a response, return an error, or panic. *)
Inductive outcome (A : Type) : Type :=
| Ok (a : A)
| Err (e : error)
| Panic (reason : string).
Arguments Ok {A} a.
Arguments Err {A} e.
Arguments Panic {A} reason.

Definition outcome_bind {A B : Type} (c : outcome A) (k : A -> outcome B) : outcome B :=
  match c with
  | Ok a => k a
  | Err e => Err e
  | Panic r => Panic r
  end.

#[export] Instance Monad_outcome : Monad outcome :=
  {| ret := @Ok; bind := @outcome_bind |}.

(** [v, err := call; if err != nil { return nil, fmt.Errorf(format, args..., err) }] *)
Definition check {A : Type} (r : result A) (format : string) (args : list fmtarg) : outcome A :=
  match r with
  | Success a => Ok a
  | Failure e => Err (fmt_Errorf format args e)
  end.

(** The same test on the result of another server method. *)
Definition wrap {A : Type} (o : outcome A) (format : string) (args : list fmtarg) : outcome A :=
  match o with
  | Ok a => Ok a
  | Err e => Err (fmt_Errorf format args e)
  | Panic r => Panic r
  end.

Definition nil_dereference : string := "invalid memory address or nil pointer dereference".

(** ** Entities of [flow-go] (the fields the server reads) *)

Definition time_Time := Z.

Record flow_Header : Type := {
  ChainID : string;
  ParentID : Identifier;
  Timestamp : time_Time;
  ParentVoterSigData : bytes
}.

Record flow_Seal : Type := {
  BlockID : Identifier;
  ResultID : Identifier
}.

Record flow_CollectionGuarantee : Type := {
  Signature : bytes
}.

Record flow_LightCollection : Type := {
  Transactions : list Identifier
}.

Record flow_TransactionResult : Type := {
  ErrorMessage : string
}.

(** ** Protobuf messages (the fields the server writes) *)

Inductive TransactionStatus : Type :=
| TransactionStatus_UNKNOWN
| TransactionStatus_PENDING
| TransactionStatus_FINALIZED
| TransactionStatus_EXECUTED
| TransactionStatus_SEALED
| TransactionStatus_EXPIRED.

Record entities_Event : Type := {
  Event_Type : string;
  Event_TransactionId : bytes;
  Event_TransactionIndex : Z;
  Event_EventIndex : Z;
  Event_Payload : bytes
}.

Record entities_BlockSeal : Type := {
  BlockSeal_BlockId : bytes;
  BlockSeal_ExecutionReceiptId : bytes;
  BlockSeal_ExecutionReceiptSignatures : list bytes
}.

Record entities_CollectionGuarantee : Type := {
  CollectionGuarantee_CollectionId : bytes;
  CollectionGuarantee_Signatures : list bytes
}.

(** ** Library functions *)

Class FlowLib : Type := {
  (* opaque library types *)
  flow_Event : Type;
  flow_TransactionBody : Type;
  flow_Chain : Type;
  cadence_Value : Type;
  entities_BlockHeader : Type;
  entities_Transaction : Type;
  timestamppb_Timestamp : Type;
  (* flow-go/model/flow *)
  HashToID : bytes -> Identifier;
  Header_ID : flow_Header -> Identifier;
  ChainID_Chain : string -> option flow_Chain;   (* panics on an unknown chain *)
  (* flow-go/consensus/hotstuff/signature *)
  DecodeSignerIDs : flow_Header -> result (list Identifier);
  (* flow-go/engine/common/rpc/convert and flow-archive/models/convert *)
  BlockHeaderToMessage : flow_Header -> list Identifier -> result entities_BlockHeader;
  MessageToBlockHeader : entities_BlockHeader -> result flow_Header;
  TransactionToMessage : flow_TransactionBody -> entities_Transaction;
  IdentifierToMessage : Identifier -> bytes;
  IDToHash : Identifier -> bytes;
  EventToMessage : flow_Event -> entities_Event;
  EventsToMessages : list flow_Event -> list entities_Event;
  (* flow-go/fvm/blueprints *)
  SystemChunkTransaction : flow_Chain -> result flow_TransactionBody;
  (* protobuf *)
  timestamppb_New : time_Time -> timestamppb_Timestamp;
  ptypes_TimestampProto : time_Time -> result timestamppb_Timestamp;
  (* cadence/encoding/json *)
  json_Decode : bytes -> result cadence_Value;
  json_Encode : cadence_Value -> result bytes
}.

Section Server.

Context {L : FlowLib}.

Record entities_Block : Type := {
  Block_Id : bytes;
  Block_Height : Z;
  Block_ParentId : bytes;
  Block_Timestamp : timestamppb_Timestamp;
  Block_CollectionGuarantees : list entities_CollectionGuarantee;
  Block_BlockSeals : list entities_BlockSeal;
  Block_Signatures : list bytes
}.

Record access_BlockResponse : Type := {
  BlockResponse_Block : entities_Block
}.

Record access_BlockHeaderResponse : Type := {
  BlockHeaderResponse_Block : entities_BlockHeader
}.

Record access_TransactionResponse : Type := {
  TransactionResponse_Transaction : entities_Transaction
}.

Record access_TransactionResultResponse : Type := {
  TransactionResultResponse_Status : TransactionStatus;
  TransactionResultResponse_StatusCode : Z;
  TransactionResultResponse_ErrorMessage : string;
  TransactionResultResponse_Events : list entities_Event;
  TransactionResultResponse_BlockId : bytes
}.

Record access_TransactionResultsResponse : Type := {
  TransactionResults : list access_TransactionResultResponse
}.

Record access_TransactionsResponse : Type := {
  TransactionsResponse_Transactions : list entities_Transaction
}.

Record access_ExecuteScriptResponse : Type := {
  ExecuteScriptResponse_Value : bytes
}.

Record access_EventsResponse_Result : Type := {
  Result_BlockId : bytes;
  Result_BlockHeight : Z;
  Result_BlockTimestamp : timestamppb_Timestamp;
  Result_Events : list entities_Event
}.

Record access_EventsResponse : Type := {
  Results : list access_EventsResponse_Result
}.

Record access_SendTransactionResponse : Type := {
  SendTransactionResponse_Id : bytes
}.

Record access_ExecutionResultForBlockIDResponse : Type := {
  ExecutionResult_BlockId : bytes
}.

Record access_ProtocolStateSnapshotResponse : Type := {
  SerializedSnapshot : bytes
}.

(** The request of [GetLatestProtocolStateSnapshot] has no field. *)
Inductive access_GetLatestProtocolStateSnapshotRequest : Type :=
| GetLatestProtocolStateSnapshotRequest.

(** ** The collaborators: [archive.Reader] and [Invoker] *)

Record Reader : Type := {
  First : result Z;
  Last : result Z;
  Header : Z -> result flow_Header;
  HeightForBlock : Identifier -> result Z;
  HeightForTransaction : Identifier -> result Z;
  SealsByHeight : Z -> result (list Identifier);
  Seal : Identifier -> result flow_Seal;
  CollectionsByHeight : Z -> result (list Identifier);
  Guarantee : Identifier -> result flow_CollectionGuarantee;
  Collection : Identifier -> result flow_LightCollection;
  Transaction : Identifier -> result flow_TransactionBody;
  Result : Identifier -> result flow_TransactionResult;
  TransactionsByHeight : Z -> result (list Identifier);
  Events : Z -> list string -> result (list flow_Event)
}.

Record Invoker : Type := {
  Script : Z -> bytes -> list cadence_Value -> result cadence_Value
}.

Record Server : Type := {
  index : Reader;
  invoker : Invoker
}.

Variable s : Server.

(** ** Block headers *)

Definition GetBlockHeaderByHeight (in_Height : Z) : outcome access_BlockHeaderResponse :=
  header <- check (Header (index s) in_Height)
              "could not retrieve block header at height %d: %w" [ArgUint in_Height] ;;
  signerIDs <- check (DecodeSignerIDs header)
              "could not decode signer ids at height %d: %w" [ArgUint in_Height] ;;
  blockMsg <- check (BlockHeaderToMessage header signerIDs)
              "could not convert block header to RPC entity: %w" [] ;;
  ret {| BlockHeaderResponse_Block := blockMsg |}.

Definition GetLatestBlockHeader : outcome access_BlockHeaderResponse :=
  height <- check (Last (index s)) "could not retrieve last block height: %w" [] ;;
  GetBlockHeaderByHeight height.

Definition GetBlockHeaderByID (in_Id : bytes) : outcome access_BlockHeaderResponse :=
  let blockID := HashToID in_Id in
  height <- check (HeightForBlock (index s) blockID)
              "could not get height for block %x: %w" [ArgBytes blockID] ;;
  GetBlockHeaderByHeight height.

(** ** Blocks *)

(** [for _, sealID := range sealIDs { ...; seals = append(seals, &entity) }] *)
Fixpoint seals_loop (sealIDs : list Identifier) (seals : list entities_BlockSeal)
  : outcome (list entities_BlockSeal) :=
  match sealIDs with
  | [] => Ok seals
  | sealID :: rest =>
      seal <- check (Seal (index s) sealID)
                "could not get seal with ID %x: %w" [ArgBytes sealID] ;;
      let blockID := BlockID seal in
      let resultID := ResultID seal in
      let entity := {| BlockSeal_BlockId := slice_of blockID;
                       BlockSeal_ExecutionReceiptId := slice_of resultID;
                       BlockSeal_ExecutionReceiptSignatures := [] |} in
      seals_loop rest (seals ++ [entity])
  end.

(** [for _, collID := range collIDs { ...; collections = append(collections, &entity) }] *)
Fixpoint collections_loop (collIDs : list Identifier)
  (collections : list entities_CollectionGuarantee)
  : outcome (list entities_CollectionGuarantee) :=
  match collIDs with
  | [] => Ok collections
  | collID :: rest =>
      guarantee <- check (Guarantee (index s) collID)
                     "could not get collection with ID %x: %w" [ArgBytes collID] ;;
      let entity := {| CollectionGuarantee_CollectionId := IDToHash collID;
                       CollectionGuarantee_Signatures := [Signature guarantee] |} in
      collections_loop rest (collections ++ [entity])
  end.

Definition GetBlockByHeight (in_Height : Z) : outcome access_BlockResponse :=
  header <- check (Header (index s) in_Height)
              "could not get header for height %d: %w" [ArgUint in_Height] ;;
  sealIDs <- check (SealsByHeight (index s) in_Height)
              "could not get seals for height %d: %w" [ArgUint in_Height] ;;
  seals <- seals_loop sealIDs [] ;;
  collIDs <- check (CollectionsByHeight (index s) in_Height)
              "could not get collections for height %d: %w" [ArgUint in_Height] ;;
  collections <- collections_loop collIDs [] ;;
  let blockID := Header_ID header in
  let block := {| Block_Id := slice_of blockID;
                  Block_Height := in_Height;
                  Block_ParentId := slice_of (ParentID header);
                  Block_Timestamp := timestamppb_New (Timestamp header);
                  Block_CollectionGuarantees := collections;
                  Block_BlockSeals := seals;
                  Block_Signatures := [ParentVoterSigData header] |} in
  ret {| BlockResponse_Block := block |}.

Definition GetLatestBlock : outcome access_BlockResponse :=
  height <- check (Last (index s)) "could not get last height: %w" [] ;;
  GetBlockByHeight height.

Definition GetBlockByID (in_Id : bytes) : outcome access_BlockResponse :=
  let blockID := HashToID in_Id in
  height <- check (HeightForBlock (index s) blockID)
              "could not get height for block %x: %w" [ArgBytes blockID] ;;
  GetBlockByHeight height.

(** ** Transactions *)

Definition GetTransaction (in_Id : bytes) : outcome access_TransactionResponse :=
  let txID := HashToID in_Id in
  tx <- check (Transaction (index s) txID) "could not retrieve transaction: %w" [] ;;
  ret {| TransactionResponse_Transaction := TransactionToMessage tx |}.

Definition GetTransactionResult (in_Id : bytes) : outcome access_TransactionResultResponse :=
  let txID := HashToID in_Id in
  result <- check (Result (index s) txID) "could not retrieve transaction result: %w" [] ;;
  height <- check (HeightForTransaction (index s) txID) "could not retrieve block height: %w" [] ;;
  block <- check (Header (index s) height) "could not retrieve block header: %w" [] ;;
  let blockID := Header_ID block in
  let statusCode := if String.eqb (ErrorMessage result) "" then 1 else 0 in
  let status := TransactionStatus_SEALED in
  sealedHeight <- check (Last (index s)) "could not retrieve last height: %w" [] ;;
  let status := if height >? sealedHeight then TransactionStatus_EXECUTED else status in
  events <- check (Events (index s) height []) "could not retrieve events: %w" [] ;;
  ret {| TransactionResultResponse_Status := status;
         TransactionResultResponse_StatusCode := statusCode;
         TransactionResultResponse_ErrorMessage := ErrorMessage result;
         TransactionResultResponse_Events := EventsToMessages events;
         TransactionResultResponse_BlockId := slice_of blockID |}.

(** [for _, transaction := range transactions { ...; transactionResults = append(...) }] *)
Fixpoint transaction_results_loop (transactions : list Identifier)
  (transactionResults : list access_TransactionResultResponse)
  : outcome (list access_TransactionResultResponse) :=
  match transactions with
  | [] => Ok transactionResults
  | transaction :: rest =>
      response <- wrap (GetTransactionResult (IdentifierToMessage transaction))
                    "could not get transaction for id %x: %w" [ArgBytes transaction] ;;
      transaction_results_loop rest (transactionResults ++ [response])
  end.

Definition GetTransactionResultsByBlockID (in_BlockId : bytes)
  : outcome access_TransactionResultsResponse :=
  let blockId := HashToID in_BlockId in
  height <- check (HeightForBlock (index s) blockId)
              "could not get height for block %x: %w" [ArgBytes blockId] ;;
  transactions <- check (TransactionsByHeight (index s) height)
              "could not get transactions for height %x: %w" [ArgUint height] ;;
  transactionResults <- transaction_results_loop transactions [] ;;
  ret {| TransactionResults := transactionResults |}.

(** The inner loop of [GetTransactionResultByIndex]: does some event of
    [result] carry the requested index? *)
Definition has_event_index (in_Index : Z) (result : access_TransactionResultResponse) : bool :=
  existsb (fun event => Event_TransactionIndex event =? in_Index)
          (TransactionResultResponse_Events result).

(** The error of [GetTransactionResultsByBlockID] is not tested before
    [resp.TransactionResults] is read: with a nil [resp] the read panics.
    Otherwise the first result with a matching event is returned, and when
    there is none the final [fmt.Errorf] wraps the (nil) [err]. *)
Definition GetTransactionResultByIndex (in_BlockId : bytes) (in_Index : Z)
  : outcome access_TransactionResultResponse :=
  match GetTransactionResultsByBlockID in_BlockId with
  | Panic r => Panic r
  | Err err => Panic nil_dereference
  | Ok resp =>
      match find (has_event_index in_Index) (TransactionResults resp) with
      | Some result => Ok result
      | None => Err (fmt_Errorf_nil "could not get transactions for index %x: %w"
                                    [ArgUint in_Index])
      end
  end.

(** [for _, transaction := range transactions { ...; transactionsEntity = append(...) }] *)
Fixpoint transactions_loop (transactions : list Identifier)
  (transactionsEntity : list entities_Transaction)
  : outcome (list entities_Transaction) :=
  match transactions with
  | [] => Ok transactionsEntity
  | transaction :: rest =>
      resp <- wrap (GetTransaction (IdentifierToMessage transaction))
                "could not get transactions for id %x: %w" [ArgBytes transaction] ;;
      transactions_loop rest (transactionsEntity ++ [TransactionResponse_Transaction resp])
  end.

(** [header.ChainID.Chain()] panics on a chain ID it does not know; the
    error of [SystemChunkTransaction] is dropped, so a nil [systemTx] is
    dereferenced by [*systemTx]. *)
Definition GetTransactionsByBlockID (in_BlockId : bytes) : outcome access_TransactionsResponse :=
  let blockId := HashToID in_BlockId in
  height <- check (HeightForBlock (index s) blockId)
              "could not get height for block %x: %w" [ArgBytes blockId] ;;
  headerResp <- wrap (GetBlockHeaderByHeight height)
              "could not get header for height %x: %w" [ArgUint height] ;;
  header <- check (MessageToBlockHeader (BlockHeaderResponse_Block headerResp))
              "could not convert header for height %x: %w" [ArgUint height] ;;
  transactions <- check (TransactionsByHeight (index s) height)
              "could not get transactions for height %x: %w" [ArgUint height] ;;
  transactionsEntity <- transactions_loop transactions [] ;;
  chain <- match ChainID_Chain (ChainID header) with
           | Some chain => Ok chain
           | None => Panic "chain ID is invalid"
           end ;;
  systemTx <- match SystemChunkTransaction chain with
              | Success systemTx => Ok systemTx
              | Failure _ => Panic nil_dereference
              end ;;
  ret {| TransactionsResponse_Transactions :=
           transactionsEntity ++ [TransactionToMessage systemTx] |}.

(** ** Scripts *)

(** One call of [s.invoker.Script(height, script, args)]. *)
Record ScriptCall : Type := {
  call_height : Z;
  call_script : bytes;
  call_args : list cadence_Value
}.

(** [for _, arg := range in.Arguments { val, err := json.Decode(nil, arg); ... }] *)
Fixpoint decode_loop (arguments : list bytes) (args : list cadence_Value)
  : outcome (list cadence_Value) :=
  match arguments with
  | [] => Ok args
  | arg :: rest =>
      val <- check (json_Decode arg) "could not decode script argument: %w" [] ;;
      decode_loop rest (args ++ [val])
  end.

(** The method threads the log of invoker calls made so far: the invoker
    is called, and the call logged, only once every argument is decoded. *)
Definition ExecuteScriptAtBlockHeight (in_BlockHeight : Z) (in_Script : bytes)
  (in_Arguments : list bytes) (calls : list ScriptCall)
  : outcome access_ExecuteScriptResponse * list ScriptCall :=
  match decode_loop in_Arguments [] with
  | Panic r => (Panic r, calls)
  | Err e => (Err e, calls)
  | Ok args =>
      let calls' := calls ++ [{| call_height := in_BlockHeight;
                                 call_script := in_Script;
                                 call_args := args |}] in
      (value <- check (Script (invoker s) in_BlockHeight in_Script args)
                 "could not execute script: %w" [] ;;
       result <- check (json_Encode value) "could not encode script result: %w" [] ;;
       ret {| ExecuteScriptResponse_Value := result |},
       calls')
  end.

Definition ExecuteScriptAtLatestBlock (in_Script : bytes) (in_Arguments : list bytes)
  (calls : list ScriptCall) : outcome access_ExecuteScriptResponse * list ScriptCall :=
  match Last (index s) with
  | Failure err => (Err (fmt_Errorf "could not get last height: %w" [] err), calls)
  | Success height => ExecuteScriptAtBlockHeight height in_Script in_Arguments calls
  end.

Definition ExecuteScriptAtBlockID (in_BlockId : bytes) (in_Script : bytes)
  (in_Arguments : list bytes) (calls : list ScriptCall)
  : outcome access_ExecuteScriptResponse * list ScriptCall :=
  let blockID := HashToID in_BlockId in
  match HeightForBlock (index s) blockID with
  | Failure err =>
      (Err (fmt_Errorf "could not get height for block ID %x: %w" [ArgBytes blockID] err), calls)
  | Success height => ExecuteScriptAtBlockHeight height in_Script in_Arguments calls
  end.

(** ** Events *)

(** [var types []flow.EventType; if in.Type != "" { types = append(types, ...) }] *)
Definition event_types (in_Type : string) : list string :=
  if String.eqb in_Type "" then [] else [in_Type].

(** [for _, event := range ee { messages = append(messages, convert.EventToMessage(event)) }] *)
Definition event_messages (ee : list flow_Event) : list entities_Event :=
  map EventToMessage ee.

(** The body of the loop of [GetEventsForHeightRange] at one height. *)
Definition height_range_body (types : list string) (height : Z)
  : outcome access_EventsResponse_Result :=
  ee <- check (Events (index s) height types)
          "could not get events at height %d: %w" [ArgUint height] ;;
  header <- check (Header (index s) height)
          "could not get header at height %d: %w" [ArgUint height] ;;
  timestamp <- check (ptypes_TimestampProto (Timestamp header))
          "could not parse timestamp for block at height %d: %w" [ArgUint height] ;;
  let messages := event_messages ee in
  let blockID := Header_ID header in
  ret {| Result_BlockId := slice_of blockID;
         Result_BlockHeight := height;
         Result_BlockTimestamp := timestamp;
         Result_Events := messages |}.

(** [for height := in.StartHeight; height <= in.EndHeight; height++ { ... }]
    on [uint64]: the increment wraps around.  The loop is not bounded by
    its data, so the model counts iterations: [None] means that [fuel]
    tests of the loop condition did not reach a [return]. *)
Fixpoint height_range_loop (fuel : nat) (types : list string) (in_EndHeight : Z)
  (height : Z) (events : list access_EventsResponse_Result)
  : option (outcome access_EventsResponse) :=
  match fuel with
  | O => None
  | S fuel' =>
      if height <=? in_EndHeight then
        match height_range_body types height with
        | Ok result =>
            height_range_loop fuel' types in_EndHeight (uint64_incr height) (events ++ [result])
        | Err e => Some (Err e)
        | Panic r => Some (Panic r)
        end
      else Some (Ok {| Results := events |})
  end.

Definition GetEventsForHeightRange (fuel : nat) (in_Type : string)
  (in_StartHeight in_EndHeight : Z) : option (outcome access_EventsResponse) :=
  let types := event_types in_Type in
  height_range_loop fuel types in_EndHeight in_StartHeight [].

(** [for _, id := range in.BlockIds { ...; events = append(events, &result) }] *)
Fixpoint block_ids_loop (types : list string) (blockIds : list bytes)
  (events : list access_EventsResponse_Result)
  : outcome (list access_EventsResponse_Result) :=
  match blockIds with
  | [] => Ok events
  | id :: rest =>
      let blockID := HashToID id in
      height <- check (HeightForBlock (index s) blockID)
                  "could not get height of block with ID %x: %w" [ArgBytes id] ;;
      ee <- check (Events (index s) height types)
                  "could not get events at height %d: %w" [ArgUint height] ;;
      header <- check (Header (index s) height)
                  "could not get header at height %d: %w" [ArgUint height] ;;
      timestamp <- check (ptypes_TimestampProto (Timestamp header))
                  "could not parse timestamp for block at height %d: %w" [ArgUint height] ;;
      let messages := event_messages ee in
      let result := {| Result_BlockId := slice_of blockID;
                       Result_BlockHeight := height;
                       Result_BlockTimestamp := timestamp;
                       Result_Events := messages |} in
      block_ids_loop types rest (events ++ [result])
  end.

Definition GetEventsForBlockIDs (in_Type : string) (in_BlockIds : list bytes)
  : outcome access_EventsResponse :=
  let types := event_types in_Type in
  events <- block_ids_loop types in_BlockIds [] ;;
  ret {| Results := events |}.

(** ** Endpoints the index cannot answer *)

Definition GetExecutionResultForBlockID (req_BlockId : bytes)
  : outcome access_ExecutionResultForBlockIDResponse :=
  Err (errors_New "GetExecutionResultForBlockID is not implemented by the Flow DPS API; please use the Flow Access API on a Flow access node directly").

Definition SendTransaction (in_Transaction : entities_Transaction)
  : outcome access_SendTransactionResponse :=
  Err (errors_New "SendTransaction is not implemented by the Flow DPS API; please use the Flow Access API on a Flow access node directly").

Definition GetLatestProtocolStateSnapshot (in_ : access_GetLatestProtocolStateSnapshotRequest)
  : outcome access_ProtocolStateSnapshotResponse :=
  Err (errors_New "GetLatestProtocolSnapshot is not implemented by the Flow DPS API; please use the Flow Access API on a Flow access node directly").

End Server.

(** ** The index contract the by-ID endpoints rely on *)

(** Every height between [First] and [Last] holds a header, and the index
    resolves the ID of that header back to its height.  This is the
    contract of [archive.Reader] ([HeightForBlock] is the inverse of
    [Header] followed by [ID]); the server does not check it. *)
Definition resolves_own_headers {L : FlowLib} (r : Reader) : Prop :=
  forall first last h,
    First r = Success first -> Last r = Success last ->
    first <= h <= last ->
    exists header,
      Header r h = Success header /\
      HeightForBlock r (HashToID (slice_of (Header_ID header))) = Success h.

(** ** How the three refusals are recognised *)

(** The server has no error codes: the refusals are plain [errors.New]
    values, told apart from every other error by their text. *)
Definition not_implemented_advice : string :=
  " is not implemented by the Flow DPS API; please use the Flow Access API on a Flow access node directly".

Definition Unimplemented (e : error) : Prop :=
  exists endpoint, e = errors_New (endpoint ++ not_implemented_advice)%string.

(** ** What a response seal is made of *)

(** [entity] is the stored seal [sealID] reduced to its block ID and
    result ID, with no signature. *)
Definition projects_seal {L : FlowLib} (r : Reader) (sealID : Identifier)
  (entity : entities_BlockSeal) : Prop :=
  exists seal,
    Seal r sealID = Success seal /\
    entity = {| BlockSeal_BlockId := slice_of (BlockID seal);
                BlockSeal_ExecutionReceiptId := slice_of (ResultID seal);
                BlockSeal_ExecutionReceiptSignatures := [] |}.

(** [seals] are the seals the index lists at height [h], in that order. *)
Definition seals_of_height {L : FlowLib} (r : Reader) (h : Z)
  (seals : list entities_BlockSeal) : Prop :=
  exists sealIDs,
    SealsByHeight r h = Success sealIDs /\ Forall2 (projects_seal r) sealIDs seals.

(** The record of [id] in a block-ID query carries that ID and the height
    the index resolves it to. *)
Definition record_of_block_id {L : FlowLib} (r : Reader) (id : bytes)
  (record : access_EventsResponse_Result) : Prop :=
  Result_BlockId record = slice_of (HashToID id) /\
  HeightForBlock r (HashToID id) = Success (Result_BlockHeight record).

(** The heights [start, start+1, ...], [n] of them. *)
Fixpoint heights_from (start : Z) (n : nat) : list Z :=
  match n with
  | O => []
  | S n' => start :: heights_from (start + 1) n'
  end.

(** ** A small index: heights 100 to 105, indexed up to 103 *)

Module Demo.

Definition byte_of (z : Z) : Byte.byte :=
  match Byte.of_N (Z.to_N z) with
  | Some b => b
  | None => Byte.x00
  end.

Definition Z_of (b : Byte.byte) : Z := Z.of_N (Byte.to_N b).

Definition not_found : error := errors_New "key not found".

#[export] Instance lib : FlowLib := {|
  flow_Event := entities_Event;
  flow_TransactionBody := bytes;
  flow_Chain := string;
  cadence_Value := Z;
  entities_BlockHeader := flow_Header;
  entities_Transaction := bytes;
  timestamppb_Timestamp := Z;
  HashToID := fun hash => hash;
  Header_ID := fun header => ParentVoterSigData header;
  ChainID_Chain := fun c => if String.eqb c "flow-mainnet" then Some c else None;
  DecodeSignerIDs := fun _ => Success [];
  BlockHeaderToMessage := fun header _ => Success header;
  MessageToBlockHeader := fun m => Success m;
  TransactionToMessage := fun tx => tx;
  IdentifierToMessage := fun id => id;
  IDToHash := fun id => id;
  EventToMessage := fun e => e;
  EventsToMessages := fun ee => ee;
  SystemChunkTransaction := fun _ => Success [Byte.xff];
  timestamppb_New := fun t => t;
  ptypes_TimestampProto := fun t => Success t;
  json_Decode := fun arg =>
    match arg with
    | [b] => Success (Z_of b)
    | _ => Failure (errors_New "invalid JSON-Cadence structure")
    end;
  json_Encode := fun v => Success [byte_of v]
|}.

Definition indexed (h : Z) : bool := (100 <=? h) && (h <=? 105).

Definition header_at (h : Z) : flow_Header :=
  {| ChainID := "flow-mainnet";
     ParentID := [byte_of (h - 1)];
     Timestamp := h * 1000;
     ParentVoterSigData := [byte_of h] |}.

Definition event_at (h : Z) : entities_Event :=
  {| Event_Type := "A.Token.Deposit";
     Event_TransactionId := [byte_of h; Byte.x01];
     Event_TransactionIndex := 0;
     Event_EventIndex := 0;
     Event_Payload := [] |}.

(** One transaction, one seal and one collection per block; only height
    102 has an event. *)
Definition reader : Reader := {|
  First := Success 100;
  Last := Success 103;
  Header := fun h => if indexed h then Success (header_at h) else Failure not_found;
  HeightForBlock := fun id =>
    match id with
    | [b] => if indexed (Z_of b) then Success (Z_of b) else Failure not_found
    | _ => Failure not_found
    end;
  HeightForTransaction := fun id =>
    match id with
    | [b; _] => if indexed (Z_of b) then Success (Z_of b) else Failure not_found
    | _ => Failure not_found
    end;
  SealsByHeight := fun h => if indexed h then Success [[byte_of (h - 1)]] else Failure not_found;
  Seal := fun id =>
    match id with
    | [b] => Success {| BlockID := [b]; ResultID := [b; Byte.xee] |}
    | _ => Failure not_found
    end;
  CollectionsByHeight := fun h =>
    if indexed h then Success [[byte_of h; Byte.x02]] else Failure not_found;
  Guarantee := fun id => Success {| Signature := id |};
  Collection := fun id =>
    match id with
    | [b; _] => Success {| Transactions := [[b; Byte.x01]] |}
    | _ => Failure not_found
    end;
  Transaction := fun id =>
    match id with
    | [b; _] => if indexed (Z_of b) then Success id else Failure not_found
    | _ => Failure not_found
    end;
  Result := fun id =>
    match id with
    | [b; _] => if indexed (Z_of b) then Success {| ErrorMessage := "" |} else Failure not_found
    | _ => Failure not_found
    end;
  TransactionsByHeight := fun h =>
    if indexed h then Success [[byte_of h; Byte.x01]] else Failure not_found;
  Events := fun h _ => if h =? 102 then Success [event_at h] else Success []
|}.

(** The invoker answers every script with the sum of its arguments. *)
Definition adder : Invoker :=
  {| Script := fun _ _ args => Success (fold_right Z.add 0 args) |}.

Definition server : Server := {| index := reader; invoker := adder |}.

(** An index holding a single block, at the largest [uint64] height. *)
Definition top_reader : Reader := {|
  First := Success MaxUint64;
  Last := Success MaxUint64;
  Header := fun h => if h =? MaxUint64 then Success (header_at 1) else Failure not_found;
  HeightForBlock := fun _ => Failure not_found;
  HeightForTransaction := fun _ => Failure not_found;
  SealsByHeight := fun _ => Failure not_found;
  Seal := fun _ => Failure not_found;
  CollectionsByHeight := fun _ => Failure not_found;
  Guarantee := fun _ => Failure not_found;
  Collection := fun _ => Failure not_found;
  Transaction := fun _ => Failure not_found;
  Result := fun _ => Failure not_found;
  TransactionsByHeight := fun _ => Failure not_found;
  Events := fun _ _ => Success []
|}.

Definition top_server : Server := {| index := top_reader; invoker := adder |}.

(** An index that answers at every height (a stub reader, as unit tests
    of the server use). *)
Definition total_reader : Reader := {|
  First := Success 0;
  Last := Success MaxUint64;
  Header := fun _ => Success (header_at 1);
  HeightForBlock := fun _ => Success 1;
  HeightForTransaction := fun _ => Success 1;
  SealsByHeight := fun _ => Success [];
  Seal := fun _ => Failure not_found;
  CollectionsByHeight := fun _ => Success [];
  Guarantee := fun _ => Failure not_found;
  Collection := fun _ => Failure not_found;
  Transaction := fun _ => Failure not_found;
  Result := fun _ => Failure not_found;
  TransactionsByHeight := fun _ => Success [];
  Events := fun _ _ => Success []
|}.

Definition total_server : Server := {| index := total_reader; invoker := adder |}.

End Demo.

(** * The remaining read endpoints *)

(** Library functions of the account endpoints. *)
Class AccountLib : Type := {
  flow_Account : Type;
  flow_Address : Type;
  entities_Account : Type;
  BytesToAddress : bytes -> flow_Address;
  AccountToMessage : flow_Account -> result entities_Account
}.

Section ReadEndpoints.

Context {L : FlowLib} {A : AccountLib}.

Inductive access_PingResponse : Type :=
| PingResponse.

Record entities_Collection : Type := {
  Collection_Id : bytes;
  Collection_TransactionIds : list bytes
}.

Record access_CollectionResponse : Type := {
  CollectionResponse_Collection : entities_Collection
}.

Record access_GetNetworkParametersResponse : Type := {
  ChainId : string
}.

Record access_AccountResponse : Type := {
  AccountResponse_Account : entities_Account
}.

Record access_GetAccountResponse : Type := {
  GetAccountResponse_Account : entities_Account
}.

(** The [Account] method of the [Invoker] interface, the one the account
    endpoints call. *)
Record AccountInvoker : Type := {
  Account : Z -> flow_Address -> result flow_Account
}.

Variable s : Server.
Variable accounts : AccountInvoker.

Definition Ping : outcome access_PingResponse := Ok PingResponse.

(** [for _, txID := range collection.Transactions {
       collEntity.TransactionIds = append(collEntity.TransactionIds, conv.IDToHash(txID)) }] *)
Fixpoint transaction_ids_loop (txIDs : list Identifier) (TransactionIds : list bytes)
  : list bytes :=
  match txIDs with
  | [] => TransactionIds
  | txID :: rest => transaction_ids_loop rest (TransactionIds ++ [IDToHash txID])
  end.

Definition GetCollectionByID (in_Id : bytes) : outcome access_CollectionResponse :=
  let collID := HashToID in_Id in
  collection <- check (Collection (index s) collID)
                  "could not retrieve collection with ID %x: %w" [ArgBytes in_Id] ;;
  let collEntity := {| Collection_Id := in_Id;
                       Collection_TransactionIds :=
                         transaction_ids_loop (Transactions collection) [] |} in
  ret {| CollectionResponse_Collection := collEntity |}.

(** [header.ChainID.String()]: a [flow.ChainID] is a string. *)
Definition GetNetworkParameters : outcome access_GetNetworkParametersResponse :=
  root <- check (First (index s)) "could not get first indexed height: %w" [] ;;
  header <- check (Header (index s) root) "could not get header: %w" [] ;;
  ret {| ChainId := ChainID header |}.

Definition GetAccountAtBlockHeight (in_Address : bytes) (in_BlockHeight : Z)
  : outcome access_AccountResponse :=
  account <- check (Account accounts in_BlockHeight (BytesToAddress in_Address))
               "could not get account: %w" [] ;;
  accountMsg <- check (AccountToMessage account)
               "could not convert account to RPC message: %w" [] ;;
  ret {| AccountResponse_Account := accountMsg |}.

Definition GetAccountAtLatestBlock (in_Address : bytes) : outcome access_AccountResponse :=
  height <- check (Last (index s)) "could not get height: %w" [] ;;
  GetAccountAtBlockHeight in_Address height.

(** [if err != nil { return nil, err }]: the error is handed on as it is. *)
Definition GetAccount (in_Address : bytes) : outcome access_GetAccountResponse :=
  account <- GetAccountAtLatestBlock in_Address ;;
  ret {| GetAccountResponse_Account := AccountResponse_Account account |}.

End ReadEndpoints.

(** * The validator: comparing an access node with an archive node *)

Module Validator.

(** What the validator does besides computing: remote calls and log lines. *)
Inductive node : Type :=
| AccessNode
| ArchiveNode.

Inductive endpoint : Type :=
| RPC_ExecuteScriptAtBlockID
| RPC_ExecuteScriptAtBlockHeight
| RPC_GetAccountAtBlockHeight.

Inductive effect : Type :=
| Rpc (n : node) (e : endpoint)
| LogInfo (msg : string)
| LogDebug (format : string) (arg : string).

(** A Go [error] result: [None] is nil. *)
Definition go_error := option error.

Section Checks.

Context {A : AccountLib}.

(** The three calls of [access.AccessAPIClient] the validator makes. *)
Record AccessAPIClient : Type := {
  client_ExecuteScriptAtBlockID :
    bytes -> bytes -> list bytes -> result access_ExecuteScriptResponse;
  client_ExecuteScriptAtBlockHeight :
    Z -> bytes -> list bytes -> result access_ExecuteScriptResponse;
  client_GetAccountAtBlockHeight :
    bytes -> Z -> result access_AccountResponse
}.

Record APIValidator : Type := {
  archiveClient : AccessAPIClient;
  accessClient : AccessAPIClient;
  script : bytes;
  arguments : list bytes;
  blockID : bytes;
  blockHeight : Z;
  accountAddr : bytes
}.

(** The text rendering of a protobuf message ([String()]). *)
Variable ExecuteScriptResponse_String : access_ExecuteScriptResponse -> string.
Variable AccountResponse_String : access_AccountResponse -> string.

Variable a : APIValidator.

Definition checkExecuteScriptAtBlockID : go_error * list effect :=
  match client_ExecuteScriptAtBlockID (accessClient a) (blockID a) (script a) (arguments a) with
  | Failure err =>
      (Some (fmt_Errorf "failed to get ExecuteScriptAtBlockID from access node: %w" [] err),
       [Rpc AccessNode RPC_ExecuteScriptAtBlockID])
  | Success accessRes =>
      let seen :=
        [Rpc AccessNode RPC_ExecuteScriptAtBlockID;
         LogDebug "received GetAccountAtBlockHeight response from AN: %s"
                  (ExecuteScriptResponse_String accessRes);
         Rpc ArchiveNode RPC_ExecuteScriptAtBlockID] in
      match client_ExecuteScriptAtBlockID (archiveClient a) (blockID a) (script a) (arguments a) with
      | Failure err =>
          (Some (fmt_Errorf "failed to get ExecuteScriptAtBlockID from archive node: %w" [] err),
           seen)
      | Success archiveRes =>
          let seen := seen ++
            [LogDebug "received GetAccountAtBlockHeight response from Archive: %s"
                      (ExecuteScriptResponse_String archiveRes)] in
          if String.eqb (ExecuteScriptResponse_String accessRes)
                        (ExecuteScriptResponse_String archiveRes)
          then (None, seen)
          else (Some (fmt_Errorf_nil
                        "unequal results! ExecuteScriptAtBlockID from access node: %w" []),
                seen)
      end
  end.

Definition checkExecuteScriptAtBlockHeight : go_error * list effect :=
  match client_ExecuteScriptAtBlockHeight (accessClient a) (blockHeight a) (script a)
                                          (arguments a) with
  | Failure err =>
      (Some (fmt_Errorf "failed to get ExecuteScriptAtBlockHeight from access node: %w" [] err),
       [Rpc AccessNode RPC_ExecuteScriptAtBlockHeight])
  | Success accessRes =>
      let seen :=
        [Rpc AccessNode RPC_ExecuteScriptAtBlockHeight;
         LogDebug "received ExecuteScriptAtBlockHeight response from AN: %s"
                  (ExecuteScriptResponse_String accessRes);
         Rpc ArchiveNode RPC_ExecuteScriptAtBlockHeight] in
      match client_ExecuteScriptAtBlockHeight (archiveClient a) (blockHeight a) (script a)
                                              (arguments a) with
      | Failure err =>
          (Some (fmt_Errorf "failed to get ExecuteScriptAtBlockHeight from access node: %w"
                            [] err),
           seen)
      | Success archiveRes =>
          let seen := seen ++
            [LogDebug "received ExecuteScriptAtBlockHeight response from Archive: %s"
                      (ExecuteScriptResponse_String archiveRes)] in
          if String.eqb (ExecuteScriptResponse_String accessRes)
                        (ExecuteScriptResponse_String archiveRes)
          then (None, seen)
          else (Some (fmt_Errorf_nil
                        "unequal results! ExecuteScriptAtBlockHeight from access node: %w" []),
                seen)
      end
  end.

Definition checkGetAccountAtBlockHeight : go_error * list effect :=
  match client_GetAccountAtBlockHeight (accessClient a) (accountAddr a) (blockHeight a) with
  | Failure err =>
      (Some (fmt_Errorf "failed to get GetAccountAtBlockHeight from access node: %w" [] err),
       [Rpc AccessNode RPC_GetAccountAtBlockHeight])
  | Success accessRes =>
      let seen :=
        [Rpc AccessNode RPC_GetAccountAtBlockHeight;
         LogDebug "received GetAccountAtBlockHeight response from AN: %s"
                  (AccountResponse_String accessRes);
         Rpc ArchiveNode RPC_GetAccountAtBlockHeight] in
      match client_GetAccountAtBlockHeight (archiveClient a) (accountAddr a) (blockHeight a) with
      | Failure err =>
          (Some (fmt_Errorf "failed to get GetAccountAtBlockHeight from access node: %w" [] err),
           seen)
      | Success archiveRes =>
          let seen := seen ++
            [LogDebug "received GetAccountAtBlockHeight response from Archive: %s"
                      (AccountResponse_String archiveRes)] in
          if String.eqb (AccountResponse_String accessRes) (AccountResponse_String archiveRes)
          then (None, seen)
          else (Some (fmt_Errorf_nil
                        "unequal results! GetAccountAtBlockHeight from access node: %w" []),
                seen)
      end
  end.

Definition CheckAPIResults : go_error * list effect :=
  let log := [LogInfo "starting comparison"] in
  match checkExecuteScriptAtBlockID with
  | (Some err, seen) =>
      (Some (fmt_Errorf "unsuccessful ExecuteScriptAtBlockID comparison: %w" [] err),
       log ++ seen)
  | (None, seen) =>
      let log := log ++ seen ++ [LogInfo "checkExecuteScriptAtBlockID successful"] in
      match checkExecuteScriptAtBlockHeight with
      | (Some err, seen) =>
          (Some (fmt_Errorf "unsuccessful ExecuteScriptAtBlockHeight comparison: %w" [] err),
           log ++ seen)
      | (None, seen) =>
          let log := log ++ seen ++ [LogInfo "checkExecuteScriptAtBlockHeight successful"] in
          match checkGetAccountAtBlockHeight with
          | (Some err, seen) =>
              (Some (fmt_Errorf "unsuccessful checkGetAccountAtBlockHeight comparison: %w"
                                [] err),
               log ++ seen)
          | (None, seen) =>
              (None, log ++ seen ++ [LogInfo "checkGetAccountAtBlockHeight successful"])
          end
      end
  end.

(** The six remote calls of a comparison. *)
Definition access_byID : result access_ExecuteScriptResponse :=
  client_ExecuteScriptAtBlockID (accessClient a) (blockID a) (script a) (arguments a).
Definition archive_byID : result access_ExecuteScriptResponse :=
  client_ExecuteScriptAtBlockID (archiveClient a) (blockID a) (script a) (arguments a).
Definition access_byHeight : result access_ExecuteScriptResponse :=
  client_ExecuteScriptAtBlockHeight (accessClient a) (blockHeight a) (script a) (arguments a).
Definition archive_byHeight : result access_ExecuteScriptResponse :=
  client_ExecuteScriptAtBlockHeight (archiveClient a) (blockHeight a) (script a) (arguments a).
Definition access_account : result access_AccountResponse :=
  client_GetAccountAtBlockHeight (accessClient a) (accountAddr a) (blockHeight a).
Definition archive_account : result access_AccountResponse :=
  client_GetAccountAtBlockHeight (archiveClient a) (accountAddr a) (blockHeight a).

(** One of the six remote calls of the comparison fails with [e]. *)
Definition call_failed (e : error) : Prop :=
  client_ExecuteScriptAtBlockID (accessClient a) (blockID a) (script a) (arguments a)
    = Failure e \/
  client_ExecuteScriptAtBlockID (archiveClient a) (blockID a) (script a) (arguments a)
    = Failure e \/
  client_ExecuteScriptAtBlockHeight (accessClient a) (blockHeight a) (script a) (arguments a)
    = Failure e \/
  client_ExecuteScriptAtBlockHeight (archiveClient a) (blockHeight a) (script a) (arguments a)
    = Failure e \/
  client_GetAccountAtBlockHeight (accessClient a) (accountAddr a) (blockHeight a)
    = Failure e \/
  client_GetAccountAtBlockHeight (archiveClient a) (accountAddr a) (blockHeight a)
    = Failure e.

End Checks.

(** The remote calls among the effects, in the order they were made. *)
Fixpoint rpcs_of (effects : list effect) : list (node * endpoint) :=
  match effects with
  | [] => []
  | Rpc n e :: rest => (n, e) :: rpcs_of rest
  | _ :: rest => rpcs_of rest
  end.

(** The calls of a comparison that runs to its end. *)
Definition full_schedule : list (node * endpoint) :=
  [(AccessNode, RPC_ExecuteScriptAtBlockID); (ArchiveNode, RPC_ExecuteScriptAtBlockID);
   (AccessNode, RPC_ExecuteScriptAtBlockHeight); (ArchiveNode, RPC_ExecuteScriptAtBlockHeight);
   (AccessNode, RPC_GetAccountAtBlockHeight); (ArchiveNode, RPC_GetAccountAtBlockHeight)].

End Validator.

(** The cause at the end of an error's [%w] chain. *)
Fixpoint root_cause (e : error) : error :=
  match e with
  | fmt_Errorf _ _ wrapped => root_cause wrapped
  | _ => e
  end.

(** * A second small index, an account source and two nodes *)

Module Demo2.

#[local] Existing Instance Demo.lib.

(** The index of [Demo] with two transactions per block and, at height
    105, three seals of which the second is not stored. *)
Definition reader : Reader := {|
  First := First Demo.reader;
  Last := Last Demo.reader;
  Header := Header Demo.reader;
  HeightForBlock := HeightForBlock Demo.reader;
  HeightForTransaction := HeightForTransaction Demo.reader;
  SealsByHeight := fun h =>
    if h =? 105 then Success [[Byte.x68]; [Byte.x01; Byte.x02]; [Byte.x67]]
    else SealsByHeight Demo.reader h;
  Seal := Seal Demo.reader;
  CollectionsByHeight := CollectionsByHeight Demo.reader;
  Guarantee := Guarantee Demo.reader;
  Collection := Collection Demo.reader;
  Transaction := Transaction Demo.reader;
  Result := fun id =>
    match id with
    | [b; Byte.x02] =>
        if Demo.indexed (Demo.Z_of b) then Success {| ErrorMessage := "out of gas" |}
        else Failure Demo.not_found
    | _ => Result Demo.reader id
    end;
  TransactionsByHeight := fun h =>
    if Demo.indexed h
    then Success [[Demo.byte_of h; Byte.x01]; [Demo.byte_of h; Byte.x02]]
    else Failure Demo.not_found;
  Events := Events Demo.reader
|}.

Definition server : Server := {| index := reader; invoker := Demo.adder |}.

#[export] Instance accountLib : AccountLib := {|
  flow_Account := Z;
  flow_Address := bytes;
  entities_Account := bytes;
  BytesToAddress := fun address => address;
  AccountToMessage := fun balance =>
    if balance <? 0 then Failure (errors_New "negative balance")
    else Success [Demo.byte_of balance]
|}.

(** Every address holds as many tokens as the height minus 100. *)
Definition accounts : AccountInvoker :=
  {| Account := fun h _ =>
       if Demo.indexed h then Success (h - 100) else Failure Demo.not_found |}.

Definition render_script (r : access_ExecuteScriptResponse) : string :=
  string_of_list_byte (ExecuteScriptResponse_Value r).

Definition render_account (r : access_AccountResponse) : string :=
  string_of_list_byte (AccountResponse_Account r).

(** A node that answers every call, the account call with [balance]. *)
Definition node_with (balance : Byte.byte) : Validator.AccessAPIClient := {|
  Validator.client_ExecuteScriptAtBlockID := fun _ _ _ =>
    Success {| ExecuteScriptResponse_Value := [Byte.x2a] |};
  Validator.client_ExecuteScriptAtBlockHeight := fun _ _ _ =>
    Success {| ExecuteScriptResponse_Value := [Byte.x2a] |};
  Validator.client_GetAccountAtBlockHeight := fun _ _ =>
    Success {| AccountResponse_Account := [balance] |}
|}.

(** A node that has not yet indexed the block. *)
Definition lagging_node : Validator.AccessAPIClient := {|
  Validator.client_ExecuteScriptAtBlockID := fun _ _ _ => Failure Demo.not_found;
  Validator.client_ExecuteScriptAtBlockHeight := fun _ _ _ => Failure Demo.not_found;
  Validator.client_GetAccountAtBlockHeight := fun _ _ => Failure Demo.not_found
|}.

Definition validator (access archive : Validator.AccessAPIClient) : Validator.APIValidator := {|
  Validator.archiveClient := archive;
  Validator.accessClient := access;
  Validator.script := [Byte.x70];
  Validator.arguments := [];
  Validator.blockID := [Byte.x66];
  Validator.blockHeight := 102;
  Validator.accountAddr := [Byte.xe4; Byte.x67]
|}.

End Demo2.

(** * Properties *)

(** One step of a method body: the monadic glue and the error tests
    reduce, the calls to other methods and loops stay folded. *)
Ltac step_in H := cbn [bind ret Monad_outcome outcome_bind check wrap] in H.

(** Case analysis on the next [(value, error)] test of a method body. *)
Ltac next_check H :=
  match type of H with
  | context [check ?r _ _] =>
      let E := fresh "E" in
      destruct r eqn:E; step_in H; try discriminate H
  end.

(** The same step in the goal. *)
Ltac step := cbn [bind ret Monad_outcome outcome_bind check wrap].

(** Case analysis on the six calls and the three comparisons of the
    validator [a], with the renderings [rs] and [ra]. *)
Ltac run_cases rs ra a :=
  unfold Validator.CheckAPIResults, Validator.checkExecuteScriptAtBlockID,
    Validator.checkExecuteScriptAtBlockHeight, Validator.checkGetAccountAtBlockHeight,
    Validator.call_failed;
  fold (Validator.access_byID a) (Validator.archive_byID a)
       (Validator.access_byHeight a) (Validator.archive_byHeight a)
       (Validator.access_account a) (Validator.archive_account a);
  destruct (Validator.access_byID a) as [r1 | e1]; cbn;
  [ destruct (Validator.archive_byID a) as [r1' | e1']; cbn;
    [ destruct (String.eqb_spec (rs r1) (rs r1')) as [Q1 | Q1]; cbn;
      [ destruct (Validator.access_byHeight a) as [r2 | e2]; cbn;
        [ destruct (Validator.archive_byHeight a) as [r2' | e2']; cbn;
          [ destruct (String.eqb_spec (rs r2) (rs r2')) as [Q2 | Q2]; cbn;
            [ destruct (Validator.access_account a) as [r3 | e3]; cbn;
              [ destruct (Validator.archive_account a) as [r3' | e3']; cbn;
                [ destruct (String.eqb_spec (ra r3) (ra r3')) as [Q3 | Q3]; cbn
                | ]
              | ]
            | ]
          | ]
        | ]
      | ]
    | ]
  | ].

Section Properties.

Context {L : FlowLib}.
Variable s : Server.

(** ** Transaction status *)

(** C1.  A successful [GetTransactionResult] has resolved the transaction
    to a height [h] and read the last indexed height [last]; the status it
    reports is SEALED exactly when [h <= last], EXECUTED exactly when
    [h > last], and never anything else. *)
Theorem GetTransactionResult_status :
  forall (in_Id : bytes) (resp : access_TransactionResultResponse),
    GetTransactionResult s in_Id = Ok resp ->
    exists h last,
      HeightForTransaction (index s) (HashToID in_Id) = Success h /\
      Last (index s) = Success last /\
      (TransactionResultResponse_Status resp = TransactionStatus_SEALED <-> h <= last) /\
      (TransactionResultResponse_Status resp = TransactionStatus_EXECUTED <-> h > last) /\
      (TransactionResultResponse_Status resp = TransactionStatus_SEALED \/
       TransactionResultResponse_Status resp = TransactionStatus_EXECUTED).
Proof.
  intros in_Id resp H. unfold GetTransactionResult in H.
  cbn [bind ret Monad_outcome outcome_bind] in H.
  next_check H. next_check H. next_check H. next_check H. next_check H.
  injection H as <-. cbn.
  do 2 eexists. split; [reflexivity | split; [reflexivity |]].
  match goal with
  | |- context [?h >? ?last] => rewrite (Z.gtb_ltb h last); destruct (Z.ltb_spec last h)
  end;
    repeat split; intros; try discriminate; try lia; auto.
Qed.

(** ** By-ID endpoints against by-height endpoints *)

Lemma GetBlockByID_resolved :
  forall (in_Id : bytes) (h : Z),
    HeightForBlock (index s) (HashToID in_Id) = Success h ->
    GetBlockByID s in_Id = GetBlockByHeight s h.
Proof.
  intros in_Id h E. unfold GetBlockByID. rewrite E. reflexivity.
Qed.

Lemma GetBlockHeaderByID_resolved :
  forall (in_Id : bytes) (h : Z),
    HeightForBlock (index s) (HashToID in_Id) = Success h ->
    GetBlockHeaderByID s in_Id = GetBlockHeaderByHeight s h.
Proof.
  intros in_Id h E. unfold GetBlockHeaderByID. rewrite E. reflexivity.
Qed.

(** C2.  On an index that resolves the IDs of its own headers, for every
    height [h] between [First] and [Last] the header stored at [h] has an
    ID for which [GetBlockByID] returns exactly what [GetBlockByHeight]
    returns for [h], and [GetBlockHeaderByID] exactly what
    [GetBlockHeaderByHeight] returns for [h]. *)
Theorem by_ID_agrees_with_by_height :
  resolves_own_headers (index s) ->
  forall first last h,
    First (index s) = Success first ->
    Last (index s) = Success last ->
    first <= h <= last ->
    exists header,
      Header (index s) h = Success header /\
      GetBlockByID s (slice_of (Header_ID header)) = GetBlockByHeight s h /\
      GetBlockHeaderByID s (slice_of (Header_ID header)) = GetBlockHeaderByHeight s h.
Proof.
  intros Hidx first last h Hfirst Hlast Hrange.
  destruct (Hidx first last h Hfirst Hlast Hrange) as (header & Hheader & Hres).
  exists header. split; [exact Hheader |].
  split.
  - apply GetBlockByID_resolved, Hres.
  - apply GetBlockHeaderByID_resolved, Hres.
Qed.

(** ** Refused endpoints *)

(** C6.  Whatever the request, [SendTransaction],
    [GetLatestProtocolStateSnapshot] and [GetExecutionResultForBlockID]
    return an error, never a response; the error is one of the
    not-implemented refusals, whose text sends the caller to an access
    node. *)
Theorem refused_endpoints :
  forall (tx : entities_Transaction) (snapshotReq : access_GetLatestProtocolStateSnapshotRequest)
         (blockId : bytes),
    (exists e, SendTransaction tx = Err e /\ Unimplemented e) /\
    (exists e, GetLatestProtocolStateSnapshot snapshotReq = Err e /\ Unimplemented e) /\
    (exists e, GetExecutionResultForBlockID blockId = Err e /\ Unimplemented e).
Proof.
  intros tx snapshotReq blockId. repeat split.
  - eexists. split; [reflexivity |]. exists "SendTransaction"%string. reflexivity.
  - eexists. split; [reflexivity |]. exists "GetLatestProtocolSnapshot"%string. reflexivity.
  - eexists. split; [reflexivity |]. exists "GetExecutionResultForBlockID"%string. reflexivity.
Qed.

(** ** Seals of a block *)

Lemma seals_loop_projects :
  forall (sealIDs : list Identifier) (seals out : list entities_BlockSeal),
    seals_loop s sealIDs seals = Ok out ->
    exists entities,
      out = seals ++ entities /\ Forall2 (projects_seal (index s)) sealIDs entities.
Proof.
  induction sealIDs as [| sealID rest IH]; intros seals out H; cbn in H.
  - injection H as <-. exists []. split; [now rewrite app_nil_r | constructor].
  - next_check H.
    apply IH in H. destruct H as (entities & -> & Hall).
    eexists (_ :: entities). split.
    + rewrite <- app_assoc. reflexivity.
    + constructor; [| exact Hall]. eexists. split; [eassumption | reflexivity].
Qed.

Lemma projects_seal_unsigned :
  forall (sealIDs : list Identifier) (entities : list entities_BlockSeal),
    Forall2 (projects_seal (index s)) sealIDs entities ->
    Forall (fun seal => BlockSeal_ExecutionReceiptSignatures seal = []) entities.
Proof.
  intros sealIDs entities H. induction H as [| sealID entity ? ? Hp _ IH]; constructor.
  - destruct Hp as (seal & _ & ->). reflexivity.
  - exact IH.
Qed.

Lemma GetBlockByHeight_seals :
  forall (h : Z) (resp : access_BlockResponse),
    GetBlockByHeight s h = Ok resp ->
    seals_of_height (index s) h (Block_BlockSeals (BlockResponse_Block resp)).
Proof.
  intros h resp H. unfold GetBlockByHeight in H.
  cbn [bind ret Monad_outcome outcome_bind] in H.
  destruct (Header (index s) h) as [header | e] eqn:Eheader;
    step_in H; try discriminate H.
  destruct (SealsByHeight (index s) h) as [sealIDs | e] eqn:EsealIDs;
    step_in H; try discriminate H.
  destruct (seals_loop s sealIDs []) as [seals | e | r] eqn:Eseals;
    step_in H; try discriminate H.
  destruct (CollectionsByHeight (index s) h) as [collIDs | e] eqn:EcollIDs;
    step_in H; try discriminate H.
  destruct (collections_loop s collIDs []) as [collections | e | r];
    step_in H; try discriminate H.
  injection H as <-. cbn.
  apply seals_loop_projects in Eseals. destruct Eseals as (entities & -> & Hall).
  exists sealIDs. split; [exact EsealIDs | exact Hall].
Qed.

(** C7.  In every successful response of [GetBlockByHeight],
    [GetBlockByID] or [GetLatestBlock], the seals are those the index
    lists for one height, in order, each carrying the stored seal's block
    ID and result ID; every one of them has an empty signature list. *)
Theorem block_seals_unsigned :
  forall (resp : access_BlockResponse),
    (exists h, GetBlockByHeight s h = Ok resp) \/
    (exists in_Id, GetBlockByID s in_Id = Ok resp) \/
    GetLatestBlock s = Ok resp ->
    (exists h, seals_of_height (index s) h (Block_BlockSeals (BlockResponse_Block resp))) /\
    Forall (fun seal => BlockSeal_ExecutionReceiptSignatures seal = [])
           (Block_BlockSeals (BlockResponse_Block resp)).
Proof.
  intros resp H.
  assert (Hh : exists h, GetBlockByHeight s h = Ok resp).
  { destruct H as [H | [[in_Id H] | H]].
    - exact H.
    - unfold GetBlockByID in H. cbn [bind Monad_outcome outcome_bind] in H.
      next_check H. eexists. exact H.
    - unfold GetLatestBlock in H. cbn [bind Monad_outcome outcome_bind] in H.
      next_check H. eexists. exact H. }
  destruct Hh as [h Hh]. apply GetBlockByHeight_seals in Hh.
  split; [exists h; exact Hh |].
  destruct Hh as (sealIDs & _ & Hall).
  eapply projects_seal_unsigned, Hall.
Qed.

(** ** Script arguments *)

Lemma decode_loop_failure :
  forall (arguments : list bytes) (args : list cadence_Value),
    (exists arg e, In arg arguments /\ json_Decode arg = Failure e) ->
    exists cause,
      decode_loop arguments args =
      Err (fmt_Errorf "could not decode script argument: %w" [] cause).
Proof.
  induction arguments as [| arg0 rest IH]; intros args (arg & e & Hin & Hdec).
  - destruct Hin.
  - cbn. destruct (json_Decode arg0) as [val | e0] eqn:E0; cbn.
    + apply IH. destruct Hin as [-> | Hin].
      * rewrite Hdec in E0. discriminate E0.
      * exists arg, e. split; assumption.
    + exists e0. reflexivity.
Qed.

Lemma decode_loop_success :
  forall (arguments : list bytes) (args : list cadence_Value),
    (forall arg, In arg arguments -> exists val, json_Decode arg = Success val) ->
    exists vals, decode_loop arguments args = Ok (args ++ vals).
Proof.
  induction arguments as [| arg0 rest IH]; intros args Hall.
  - exists []. cbn. now rewrite app_nil_r.
  - destruct (Hall arg0 (or_introl eq_refl)) as [val Hval].
    cbn. rewrite Hval. cbn.
    destruct (IH (args ++ [val])) as [vals Hvals].
    + intros arg Hin. apply Hall. right. exact Hin.
    + exists (val :: vals). rewrite Hvals, <- app_assoc. reflexivity.
Qed.

(** When every argument decodes, the invoker is called once, with the
    requested height and script: the log grows by exactly that call. *)
Lemma ExecuteScriptAtBlockHeight_calls_invoker :
  forall (h : Z) (script : bytes) (arguments : list bytes) (calls : list ScriptCall),
    (forall arg, In arg arguments -> exists val, json_Decode arg = Success val) ->
    exists args,
      snd (ExecuteScriptAtBlockHeight s h script arguments calls) =
      calls ++ [{| call_height := h; call_script := script; call_args := args |}].
Proof.
  intros h script arguments calls Hall.
  destruct (decode_loop_success arguments [] Hall) as [vals Hvals].
  unfold ExecuteScriptAtBlockHeight. rewrite Hvals. cbn. exists vals. reflexivity.
Qed.

(** C8.  If some argument of an [ExecuteScriptAtBlockHeight] request does
    not decode, the method returns the decoding error, wrapped, and the
    log of invoker calls is what it was before the request: the invoker
    was not called. *)
Theorem ExecuteScriptAtBlockHeight_decode_failure :
  forall (h : Z) (script : bytes) (arguments : list bytes) (calls : list ScriptCall),
    (exists arg e, In arg arguments /\ json_Decode arg = Failure e) ->
    exists cause,
      ExecuteScriptAtBlockHeight s h script arguments calls =
      (Err (fmt_Errorf "could not decode script argument: %w" [] cause), calls).
Proof.
  intros h script arguments calls Hbad.
  destruct (decode_loop_failure arguments [] Hbad) as [cause Hcause].
  exists cause. unfold ExecuteScriptAtBlockHeight. rewrite Hcause. reflexivity.
Qed.

(** ** Transactions of a block *)

Lemma transactions_loop_in_order :
  forall (transactions : list Identifier) (transactionsEntity out : list entities_Transaction),
    transactions_loop s transactions transactionsEntity = Ok out ->
    exists bodies,
      out = transactionsEntity ++ map TransactionToMessage bodies /\
      Forall2 (fun id body =>
                 Transaction (index s) (HashToID (IdentifierToMessage id)) = Success body)
              transactions bodies.
Proof.
  induction transactions as [| transaction rest IH]; intros acc out H; cbn in H.
  - injection H as <-. exists []. split; [now rewrite app_nil_r | constructor].
  - unfold GetTransaction in H. cbn [bind ret Monad_outcome outcome_bind] in H.
    destruct (Transaction (index s) (HashToID (IdentifierToMessage transaction)))
      as [body | e] eqn:E; cbn in H; try discriminate H.
    apply IH in H. destruct H as (bodies & -> & Hall).
    exists (body :: bodies). split.
    + rewrite <- app_assoc. reflexivity.
    + constructor; assumption.
Qed.

(** C9.  A successful [GetTransactionsByBlockID] response lists the
    transactions the index records for the block's height, in the index's
    order, followed by one more: the system chunk transaction of the chain
    named by the header.  It is one transaction longer than the index's
    list. *)
Theorem GetTransactionsByBlockID_appends_system_transaction :
  forall (in_BlockId : bytes) (resp : access_TransactionsResponse),
    GetTransactionsByBlockID s in_BlockId = Ok resp ->
    exists height transactions bodies headerResp header chain systemTx,
      HeightForBlock (index s) (HashToID in_BlockId) = Success height /\
      TransactionsByHeight (index s) height = Success transactions /\
      Forall2 (fun id body =>
                 Transaction (index s) (HashToID (IdentifierToMessage id)) = Success body)
              transactions bodies /\
      GetBlockHeaderByHeight s height = Ok headerResp /\
      MessageToBlockHeader (BlockHeaderResponse_Block headerResp) = Success header /\
      ChainID_Chain (ChainID header) = Some chain /\
      SystemChunkTransaction chain = Success systemTx /\
      TransactionsResponse_Transactions resp =
        map TransactionToMessage bodies ++ [TransactionToMessage systemTx] /\
      List.length (TransactionsResponse_Transactions resp) = S (List.length transactions).
Proof.
  intros in_BlockId resp H. unfold GetTransactionsByBlockID in H.
  step_in H.
  destruct (HeightForBlock (index s) (HashToID in_BlockId)) as [height | e] eqn:Eh;
    step_in H; try discriminate H.
  destruct (GetBlockHeaderByHeight s height) as [headerResp | e | r] eqn:Ehdr;
    step_in H; try discriminate H.
  destruct (MessageToBlockHeader (BlockHeaderResponse_Block headerResp))
    as [header | e] eqn:Emsg; step_in H; try discriminate H.
  destruct (TransactionsByHeight (index s) height) as [transactions | e] eqn:Etx;
    step_in H; try discriminate H.
  destruct (transactions_loop s transactions []) as [entities | e | r] eqn:Eloop;
    step_in H; try discriminate H.
  destruct (ChainID_Chain (ChainID header)) as [chain |] eqn:Echain;
    step_in H; try discriminate H.
  destruct (SystemChunkTransaction chain) as [systemTx | e] eqn:Esys;
    step_in H; try discriminate H.
  injection H as <-. cbn.
  apply transactions_loop_in_order in Eloop. destruct Eloop as (bodies & -> & Hall).
  exists height, transactions, bodies, headerResp, header, chain, systemTx.
  repeat (split; [assumption || reflexivity |]).
  cbn. rewrite length_app, length_map, (Forall2_length Hall). cbn. lia.
Qed.

(** ** Events of a list of blocks *)

Lemma block_ids_loop_in_order :
  forall (types : list string) (blockIds : list bytes)
         (events out : list access_EventsResponse_Result),
    block_ids_loop s types blockIds events = Ok out ->
    exists records,
      out = events ++ records /\
      Forall2 (record_of_block_id (index s)) blockIds records.
Proof.
  intros types. induction blockIds as [| id rest IH]; intros events out H; cbn in H.
  - injection H as <-. exists []. split; [now rewrite app_nil_r | constructor].
  - next_check H. next_check H. next_check H. next_check H.
    apply IH in H. destruct H as (records & -> & Hall).
    eexists (_ :: records). split.
    + rewrite <- app_assoc. reflexivity.
    + constructor; [| exact Hall]. split; [reflexivity | eassumption].
Qed.

(** C5.  A successful [GetEventsForBlockIDs] response holds one record
    per supplied block ID, in the order the IDs were supplied: the i-th
    record carries the i-th ID and the height the index resolves it to,
    whatever the order of those heights. *)
Theorem GetEventsForBlockIDs_in_request_order :
  forall (in_Type : string) (in_BlockIds : list bytes) (resp : access_EventsResponse),
    GetEventsForBlockIDs s in_Type in_BlockIds = Ok resp ->
    List.length (Results resp) = List.length in_BlockIds /\
    map Result_BlockId (Results resp) = map (fun id => slice_of (HashToID id)) in_BlockIds /\
    Forall2 (record_of_block_id (index s)) in_BlockIds (Results resp).
Proof.
  intros in_Type in_BlockIds resp H. unfold GetEventsForBlockIDs in H.
  cbn [bind ret Monad_outcome outcome_bind] in H.
  destruct (block_ids_loop s (event_types in_Type) in_BlockIds []) as [events | e | r] eqn:E;
    cbn in H; try discriminate H.
  injection H as <-. cbn.
  apply block_ids_loop_in_order in E. destruct E as (records & -> & Hall). cbn.
  split; [symmetry; exact (Forall2_length Hall) |].
  split; [| exact Hall].
  clear - Hall. induction Hall as [| id record ids records [Hid _] _ IH]; cbn.
  - reflexivity.
  - rewrite Hid, IH. reflexivity.
Qed.

(** ** Transaction result by index *)

(** Whenever the block's results cannot be resolved, the nil response is
    read before the error is looked at. *)
Lemma GetTransactionResultByIndex_failure_panics :
  forall (in_BlockId : bytes) (in_Index : Z) (err : error),
    GetTransactionResultsByBlockID s in_BlockId = Err err ->
    GetTransactionResultByIndex s in_BlockId in_Index = Panic nil_dereference.
Proof.
  intros in_BlockId in_Index err H. unfold GetTransactionResultByIndex.
  rewrite H. reflexivity.
Qed.

(** ** Events of a range of heights *)

Lemma uint64_modulus_pos : 0 < uint64_modulus.
Proof. reflexivity. Qed.

Lemma uint64_incr_below_max :
  forall h, 0 <= h < MaxUint64 -> uint64_incr h = h + 1.
Proof.
  intros h Hh. unfold uint64_incr, MaxUint64 in *. apply Z.mod_small. lia.
Qed.

Lemma uint64_incr_range :
  forall h, is_uint64 (uint64_incr h).
Proof.
  intros h. unfold is_uint64, uint64_incr, MaxUint64.
  pose proof (Z.mod_pos_bound (h + 1) uint64_modulus uint64_modulus_pos). lia.
Qed.

Lemma height_range_loop_unfold :
  forall fuel types in_EndHeight height events,
    height_range_loop s (S fuel) types in_EndHeight height events =
    if height <=? in_EndHeight then
      match height_range_body s types height with
      | Ok result =>
          height_range_loop s fuel types in_EndHeight (uint64_incr height) (events ++ [result])
      | Err e => Some (Err e)
      | Panic r => Some (Panic r)
      end
    else Some (Ok {| Results := events |}).
Proof. reflexivity. Qed.

(** More fuel does not change an answer. *)
Lemma height_range_loop_fuel_mono :
  forall fuel types in_EndHeight height events answer,
    height_range_loop s fuel types in_EndHeight height events = Some answer ->
    forall fuel', (fuel <= fuel')%nat ->
    height_range_loop s fuel' types in_EndHeight height events = Some answer.
Proof.
  induction fuel as [| fuel IH]; intros types in_EndHeight height events answer H fuel' Hle.
  - discriminate H.
  - destruct fuel' as [| fuel']; [lia |].
    rewrite height_range_loop_unfold in *.
    destruct (height <=? in_EndHeight); [| exact H].
    destruct (height_range_body s types height); try exact H.
    eapply IH; [exact H | lia].
Qed.

(** A height without events is not an error: its record has no event. *)
Lemma height_range_body_gap :
  forall types height record,
    Events (index s) height types = Success [] ->
    height_range_body s types height = Ok record ->
    Result_BlockHeight record = height /\ Result_Events record = [].
Proof.
  intros types height record Hev H. unfold height_range_body in H.
  rewrite Hev in H. step_in H. next_check H. next_check H.
  injection H as <-. split; reflexivity.
Qed.

Lemma height_range_body_height :
  forall types height record,
    height_range_body s types height = Ok record ->
    Result_BlockHeight record = height.
Proof.
  intros types height record H. unfold height_range_body in H.
  step_in H. next_check H. next_check H. next_check H.
  injection H as <-. reflexivity.
Qed.

(** Below the largest [uint64] the loop counts from [height] to
    [in_EndHeight] and stops. *)
Lemma height_range_loop_complete :
  forall (n : nat) types in_EndHeight height events,
    0 <= height ->
    height + Z.of_nat n = in_EndHeight + 1 ->
    in_EndHeight < MaxUint64 ->
    (forall h, height <= h <= in_EndHeight ->
               exists record, height_range_body s types h = Ok record) ->
    exists records,
      height_range_loop s (S n) types in_EndHeight height events =
        Some (Ok {| Results := events ++ records |}) /\
      Forall2 (fun h record => height_range_body s types h = Ok record)
              (heights_from height n) records.
Proof.
  induction n as [| n IH]; intros types in_EndHeight height events Hpos Hn Hmax Hall.
  - exists []. rewrite height_range_loop_unfold.
    destruct (Z.leb_spec height in_EndHeight); [lia |].
    rewrite app_nil_r. split; [reflexivity | constructor].
  - rewrite height_range_loop_unfold.
    destruct (Z.leb_spec height in_EndHeight); [| lia].
    destruct (Hall height ltac:(lia)) as [record Hrecord]. rewrite Hrecord.
    rewrite uint64_incr_below_max by lia.
    destruct (IH types in_EndHeight (height + 1) (events ++ [record]))
      as (records & Hloop & Hrecords); try lia.
    + intros h Hh. apply Hall. lia.
    + exists (record :: records). rewrite Hloop, <- app_assoc. split; [reflexivity |].
      cbn [heights_from]. constructor; assumption.
Qed.

(** The range query below the largest height: with every height of a
    non-empty range [start, end] answered, the response holds
    [end - start + 1] records, the record of each height in turn. *)
Lemma GetEventsForHeightRange_complete :
  forall in_Type in_StartHeight in_EndHeight,
    0 <= in_StartHeight <= in_EndHeight ->
    in_EndHeight < MaxUint64 ->
    (forall h, in_StartHeight <= h <= in_EndHeight ->
               exists record, height_range_body s (event_types in_Type) h = Ok record) ->
    exists fuel records,
      GetEventsForHeightRange s fuel in_Type in_StartHeight in_EndHeight =
        Some (Ok {| Results := records |}) /\
      Z.of_nat (List.length records) = in_EndHeight - in_StartHeight + 1 /\
      Forall2 (fun h record => height_range_body s (event_types in_Type) h = Ok record)
              (heights_from in_StartHeight (Z.to_nat (in_EndHeight - in_StartHeight + 1)))
              records.
Proof.
  intros in_Type in_StartHeight in_EndHeight Hrange Hmax Hall.
  set (n := Z.to_nat (in_EndHeight - in_StartHeight + 1)).
  destruct (@height_range_loop_complete n (event_types in_Type) in_EndHeight in_StartHeight [])
    as (records & Hloop & Hrecords); try lia; try assumption.
  exists (S n), records. split; [exact Hloop |]. split; [| exact Hrecords].
  apply Forall2_length in Hrecords. rewrite <- Hrecords.
  assert (Hlen : forall m start, List.length (heights_from start m) = m).
  { induction m as [| m IHm]; intros start; cbn; [reflexivity | now rewrite IHm]. }
  rewrite Hlen. lia.
Qed.

(** With the end of the range below the largest height the loop returns,
    whatever the index answers. *)
Lemma height_range_loop_returns_below_max :
  forall (n : nat) types in_EndHeight height events,
    0 <= height ->
    in_EndHeight < MaxUint64 ->
    in_EndHeight + 1 - height <= Z.of_nat n ->
    exists answer,
      height_range_loop s (S n) types in_EndHeight height events = Some answer.
Proof.
  induction n as [| n IH]; intros types in_EndHeight height events Hpos Hmax Hn;
    rewrite height_range_loop_unfold;
    destruct (Z.leb_spec height in_EndHeight); try lia; try (eexists; reflexivity).
  destruct (height_range_body s types height); try (eexists; reflexivity).
  rewrite uint64_incr_below_max by lia. apply IH; lia.
Qed.

(** When the index refuses some height, the loop returns for every range,
    the wrapped one included: it reaches the refused height at the latest. *)
Lemma height_range_loop_returns_at_refusal :
  forall (refused : Z) types in_EndHeight,
    is_uint64 refused ->
    (forall record, height_range_body s types refused <> Ok record) ->
    forall (n : nat) height events,
      is_uint64 height ->
      (refused - height) mod uint64_modulus = Z.of_nat n ->
      exists answer,
        height_range_loop s (S n) types in_EndHeight height events = Some answer.
Proof.
  intros refused types in_EndHeight Hrefused Hbody.
  pose proof uint64_modulus_pos as Hpos.
  induction n as [| n IH]; intros height events Hheight Hn;
    rewrite height_range_loop_unfold;
    destruct (height <=? in_EndHeight); try (eexists; reflexivity).
  - assert (refused = height).
    { unfold is_uint64, MaxUint64 in *.
      destruct (Z.eq_dec refused height) as [| Hne]; [assumption | exfalso].
      destruct (Z.lt_ge_cases refused height).
      - rewrite <- (Z.mod_add _ 1), Z.mod_small in Hn; lia.
      - rewrite Z.mod_small in Hn; lia. }
    subst height.
    destruct (height_range_body s types refused) as [record | e | r] eqn:E;
      try (eexists; reflexivity).
    exfalso. exact (Hbody record eq_refl).
  - destruct (height_range_body s types height); try (eexists; reflexivity).
    apply IH; [apply uint64_incr_range |].
    unfold uint64_incr. rewrite Zminus_mod_idemp_r.
    replace (refused - (height + 1)) with ((refused - height) - 1) by lia.
    rewrite <- Zminus_mod_idemp_l, Hn.
    pose proof (Z.mod_pos_bound (refused - height) uint64_modulus Hpos).
    rewrite Z.mod_small; lia.
Qed.

Lemma GetEventsForHeightRange_returns_at_refusal :
  forall (refused : Z) in_Type in_StartHeight in_EndHeight,
    is_uint64 refused ->
    (forall record, height_range_body s (event_types in_Type) refused <> Ok record) ->
    is_uint64 in_StartHeight ->
    exists fuel answer,
      GetEventsForHeightRange s fuel in_Type in_StartHeight in_EndHeight = Some answer.
Proof.
  intros refused in_Type in_StartHeight in_EndHeight Hrefused Hbody Hstart.
  pose proof (Z.mod_pos_bound (refused - in_StartHeight) uint64_modulus uint64_modulus_pos).
  destruct (@height_range_loop_returns_at_refusal refused (event_types in_Type) in_EndHeight
              Hrefused Hbody
              (Z.to_nat ((refused - in_StartHeight) mod uint64_modulus)) in_StartHeight [])
    as [answer Hanswer]; [assumption | lia |].
  eexists _, answer. exact Hanswer.
Qed.

(** When the index answers at every height and the range ends at the
    largest height, the loop condition holds at every test: no amount of
    fuel reaches a [return]. *)
Lemma height_range_loop_never_returns :
  forall types,
    (forall h, is_uint64 h -> exists record, height_range_body s types h = Ok record) ->
    forall fuel height events,
      is_uint64 height ->
      height_range_loop s fuel types MaxUint64 height events = None.
Proof.
  intros types Hall. induction fuel as [| fuel IH]; intros height events Hheight.
  - reflexivity.
  - rewrite height_range_loop_unfold.
    destruct (Z.leb_spec height MaxUint64); [| unfold is_uint64 in Hheight; lia].
    destruct (Hall height Hheight) as [record ->].
    apply IH, uint64_incr_range.
Qed.

End Properties.

(** * Further properties of the server *)

Section BlockProperties.

Context {L : FlowLib}.
Variable s : Server.

(** ** Assembling a block *)

Lemma seals_loop_outcome :
  forall (sealIDs : list Identifier) (seals : list entities_BlockSeal),
    (exists out, seals_loop s sealIDs seals = Ok out) \/
    (exists sealID cause,
       In sealID sealIDs /\ Seal (index s) sealID = Failure cause /\
       seals_loop s sealIDs seals =
         Err (fmt_Errorf "could not get seal with ID %x: %w" [ArgBytes sealID] cause)).
Proof.
  induction sealIDs as [| sealID rest IH]; intros seals; cbn.
  - left. eexists. reflexivity.
  - destruct (Seal (index s) sealID) as [seal | cause] eqn:E; cbn.
    + destruct (IH (seals ++ [{| BlockSeal_BlockId := slice_of (BlockID seal);
                                  BlockSeal_ExecutionReceiptId := slice_of (ResultID seal);
                                  BlockSeal_ExecutionReceiptSignatures := [] |}]))
        as [Hok | (bad & cause & Hin & Hbad & Hloop)].
      * left. exact Hok.
      * right. exists bad, cause. split; [right; exact Hin | split; assumption].
    + right. exists sealID, cause. split; [left; reflexivity | split; [exact E | reflexivity]].
Qed.

Lemma seals_loop_first_failure :
  forall (found : list Identifier) (missing : Identifier) (later : list Identifier)
         (cause : error) (seals : list entities_BlockSeal),
    Forall (fun sealID => exists seal, Seal (index s) sealID = Success seal) found ->
    Seal (index s) missing = Failure cause ->
    seals_loop s (found ++ missing :: later) seals =
      Err (fmt_Errorf "could not get seal with ID %x: %w" [ArgBytes missing] cause).
Proof.
  induction found as [| sealID rest IH]; intros missing later cause seals Hfound Hmissing; cbn.
  - rewrite Hmissing. reflexivity.
  - inversion Hfound as [| ? ? [seal Hseal] Hrest]; subst.
    rewrite Hseal. cbn. apply IH; assumption.
Qed.

Lemma collections_loop_projects :
  forall (collIDs : list Identifier) (collections out : list entities_CollectionGuarantee),
    collections_loop s collIDs collections = Ok out ->
    exists entities,
      out = collections ++ entities /\
      Forall2 (fun collID entity =>
                 exists guarantee,
                   Guarantee (index s) collID = Success guarantee /\
                   entity = {| CollectionGuarantee_CollectionId := IDToHash collID;
                               CollectionGuarantee_Signatures := [Signature guarantee] |})
              collIDs entities.
Proof.
  induction collIDs as [| collID rest IH]; intros collections out H; cbn in H.
  - injection H as <-. exists []. split; [now rewrite app_nil_r | constructor].
  - destruct (Guarantee (index s) collID) as [guarantee | e] eqn:E;
      step_in H; try discriminate H.
    apply IH in H. destruct H as (entities & -> & Hall).
    eexists (_ :: entities). split.
    + rewrite <- app_assoc. reflexivity.
    + constructor; [| exact Hall]. exists guarantee. split; [exact E | reflexivity].
Qed.

Lemma collections_loop_outcome :
  forall (collIDs : list Identifier) (collections : list entities_CollectionGuarantee),
    (exists out, collections_loop s collIDs collections = Ok out) \/
    (exists collID cause,
       In collID collIDs /\ Guarantee (index s) collID = Failure cause /\
       collections_loop s collIDs collections =
         Err (fmt_Errorf "could not get collection with ID %x: %w" [ArgBytes collID] cause)).
Proof.
  induction collIDs as [| collID rest IH]; intros collections; cbn.
  - left. eexists. reflexivity.
  - destruct (Guarantee (index s) collID) as [guarantee | cause] eqn:E; cbn.
    + destruct (IH (collections ++
                      [{| CollectionGuarantee_CollectionId := IDToHash collID;
                          CollectionGuarantee_Signatures := [Signature guarantee] |}]))
        as [Hok | (bad & cause & Hin & Hbad & Hloop)].
      * left. exact Hok.
      * right. exists bad, cause. split; [right; exact Hin | split; assumption].
    + right. exists collID, cause. split; [left; reflexivity | split; [exact E | reflexivity]].
Qed.

(** X1.  [GetBlockByHeight] answers with a block exactly when the index
    holds everything the block is made of: the header, the list of seal
    IDs and every seal on it, the list of collection IDs and the guarantee
    of every collection on it. *)
Theorem GetBlockByHeight_succeeds_iff :
  forall (h : Z),
    (exists resp, GetBlockByHeight s h = Ok resp) <->
    (exists header sealIDs collIDs,
       Header (index s) h = Success header /\
       SealsByHeight (index s) h = Success sealIDs /\
       Forall (fun sealID => exists seal, Seal (index s) sealID = Success seal) sealIDs /\
       CollectionsByHeight (index s) h = Success collIDs /\
       Forall (fun collID => exists guarantee,
                 Guarantee (index s) collID = Success guarantee) collIDs).
Proof.
  intros h. unfold GetBlockByHeight. split.
  - intros [resp H]. step_in H.
    destruct (Header (index s) h) as [header | e] eqn:Eheader;
      step_in H; try discriminate H.
    destruct (SealsByHeight (index s) h) as [sealIDs | e] eqn:EsealIDs;
      step_in H; try discriminate H.
    destruct (seals_loop s sealIDs []) as [seals | e | r] eqn:Eseals;
      step_in H; try discriminate H.
    destruct (CollectionsByHeight (index s) h) as [collIDs | e] eqn:EcollIDs;
      step_in H; try discriminate H.
    destruct (collections_loop s collIDs []) as [collections | e | r] eqn:Ecolls;
      step_in H; try discriminate H.
    exists header, sealIDs, collIDs. repeat split; try reflexivity.
    + apply seals_loop_projects in Eseals. destruct Eseals as (entities & _ & Hall).
      clear - Hall. induction Hall as [| ? ? ? ? (seal & Hseal & _) _ IH]; constructor.
      * exists seal. exact Hseal.
      * exact IH.
    + apply collections_loop_projects in Ecolls. destruct Ecolls as (entities & _ & Hall).
      clear - Hall. induction Hall as [| ? ? ? ? (guarantee & Hg & _) _ IH]; constructor.
      * exists guarantee. exact Hg.
      * exact IH.
  - intros (header & sealIDs & collIDs & Hheader & HsealIDs & Hseals & HcollIDs & Hcolls).
    step. rewrite Hheader, HsealIDs. cbn [check outcome_bind].
    destruct (seals_loop_outcome sealIDs []) as [[seals ->] | (bad & cause & Hin & Hbad & _)].
    + cbn [outcome_bind]. rewrite HcollIDs. cbn [check outcome_bind].
      destruct (collections_loop_outcome collIDs [])
        as [[collections ->] | (bad & cause & Hin & Hbad & _)].
      * eexists. reflexivity.
      * rewrite Forall_forall in Hcolls. destruct (Hcolls bad Hin) as [guarantee Hg].
        rewrite Hg in Hbad. discriminate Hbad.
    + rewrite Forall_forall in Hseals. destruct (Hseals bad Hin) as [seal Hseal].
      rewrite Hseal in Hbad. discriminate Hbad.
Qed.

Lemma GetBlockByHeight_block_fields :
  forall (h : Z) (resp : access_BlockResponse),
    GetBlockByHeight s h = Ok resp ->
    exists header collIDs,
      Header (index s) h = Success header /\
      CollectionsByHeight (index s) h = Success collIDs /\
      Block_Height (BlockResponse_Block resp) = h /\
      Block_Id (BlockResponse_Block resp) = slice_of (Header_ID header) /\
      Block_ParentId (BlockResponse_Block resp) = slice_of (ParentID header) /\
      Block_Timestamp (BlockResponse_Block resp) = timestamppb_New (Timestamp header) /\
      Block_Signatures (BlockResponse_Block resp) = [ParentVoterSigData header] /\
      Forall2 (fun collID entity =>
                 exists guarantee,
                   Guarantee (index s) collID = Success guarantee /\
                   entity = {| CollectionGuarantee_CollectionId := IDToHash collID;
                               CollectionGuarantee_Signatures := [Signature guarantee] |})
              collIDs (Block_CollectionGuarantees (BlockResponse_Block resp)).
Proof.
  intros h resp H. unfold GetBlockByHeight in H. step_in H.
  destruct (Header (index s) h) as [header | e] eqn:Eheader;
    step_in H; try discriminate H.
  destruct (SealsByHeight (index s) h) as [sealIDs | e] eqn:EsealIDs;
    step_in H; try discriminate H.
  destruct (seals_loop s sealIDs []) as [seals | e | r] eqn:Eseals;
    step_in H; try discriminate H.
  destruct (CollectionsByHeight (index s) h) as [collIDs | e] eqn:EcollIDs;
    step_in H; try discriminate H.
  destruct (collections_loop s collIDs []) as [collections | e | r] eqn:Ecolls;
    step_in H; try discriminate H.
  injection H as <-. cbn.
  apply collections_loop_projects in Ecolls. destruct Ecolls as (entities & -> & Hall).
  exists header, collIDs. repeat split; try reflexivity. exact Hall.
Qed.

(** X2.  The block of a successful [GetBlockByHeight] response has the
    requested height, the ID, parent ID and timestamp of the stored header,
    the header's parent vote data as its only signature, and one guarantee
    per collection the index lists for the height, in order: the
    collection's ID with the stored guarantee's signature as its only
    signature. *)
Theorem GetBlockByHeight_block :
  forall (h : Z) (resp : access_BlockResponse),
    GetBlockByHeight s h = Ok resp ->
    exists header collIDs,
      Header (index s) h = Success header /\
      CollectionsByHeight (index s) h = Success collIDs /\
      Block_Height (BlockResponse_Block resp) = h /\
      Block_Id (BlockResponse_Block resp) = slice_of (Header_ID header) /\
      Block_ParentId (BlockResponse_Block resp) = slice_of (ParentID header) /\
      Block_Timestamp (BlockResponse_Block resp) = timestamppb_New (Timestamp header) /\
      Block_Signatures (BlockResponse_Block resp) = [ParentVoterSigData header] /\
      Forall2 (fun collID entity =>
                 exists guarantee,
                   Guarantee (index s) collID = Success guarantee /\
                   entity = {| CollectionGuarantee_CollectionId := IDToHash collID;
                               CollectionGuarantee_Signatures := [Signature guarantee] |})
              collIDs (Block_CollectionGuarantees (BlockResponse_Block resp)).
Proof. exact GetBlockByHeight_block_fields. Qed.

(** X3.  When the header and the seal list of a height are found but a
    seal on the list is missing, [GetBlockByHeight] returns the error of
    the first missing seal, naming it; the seals found before it are not
    returned and the collections are not looked at. *)
Theorem GetBlockByHeight_first_missing_seal :
  forall (h : Z) (header : flow_Header) (found : list Identifier) (missing : Identifier)
         (later : list Identifier) (cause : error),
    Header (index s) h = Success header ->
    SealsByHeight (index s) h = Success (found ++ missing :: later) ->
    Forall (fun sealID => exists seal, Seal (index s) sealID = Success seal) found ->
    Seal (index s) missing = Failure cause ->
    GetBlockByHeight s h =
      Err (fmt_Errorf "could not get seal with ID %x: %w" [ArgBytes missing] cause).
Proof.
  intros h header found missing later cause Hheader HsealIDs Hfound Hmissing.
  unfold GetBlockByHeight. step. rewrite Hheader, HsealIDs. cbn [check outcome_bind].
  rewrite (@seals_loop_first_failure found missing later cause [] Hfound Hmissing).
  reflexivity.
Qed.

(** X4.  [GetBlockByHeight] never panics: it returns a block, or an error
    that wraps, one level deep, the error of the index lookup that failed
    (the header, the seal list, a seal, the collection list or a
    guarantee). *)
Theorem GetBlockByHeight_error_cause :
  forall (h : Z),
    (exists resp, GetBlockByHeight s h = Ok resp) \/
    (exists e cause,
       GetBlockByHeight s h = Err e /\
       errors_Unwrap e = Some cause /\
       (Header (index s) h = Failure cause \/
        SealsByHeight (index s) h = Failure cause \/
        (exists sealID, Seal (index s) sealID = Failure cause) \/
        CollectionsByHeight (index s) h = Failure cause \/
        (exists collID, Guarantee (index s) collID = Failure cause))).
Proof.
  intros h. unfold GetBlockByHeight. step.
  destruct (Header (index s) h) as [header | e] eqn:Eheader; cbn [check outcome_bind].
  2: { right. do 2 eexists. split; [reflexivity | split; [reflexivity | auto]]. }
  destruct (SealsByHeight (index s) h) as [sealIDs | e] eqn:EsealIDs; cbn [check outcome_bind].
  2: { right. do 2 eexists. split; [reflexivity | split; [reflexivity | auto]]. }
  destruct (seals_loop_outcome sealIDs []) as [[seals ->] | (bad & cause & _ & Hbad & ->)];
    cbn [outcome_bind].
  2: { right. do 2 eexists. split; [reflexivity | split; [reflexivity |]].
       right. right. left. exists bad. exact Hbad. }
  destruct (CollectionsByHeight (index s) h) as [collIDs | e] eqn:EcollIDs;
    cbn [check outcome_bind].
  2: { right. do 2 eexists. split; [reflexivity | split; [reflexivity | auto]]. }
  destruct (collections_loop_outcome collIDs [])
    as [[collections ->] | (bad & cause & _ & Hbad & ->)]; cbn [outcome_bind].
  - left. eexists. reflexivity.
  - right. do 2 eexists. split; [reflexivity | split; [reflexivity |]].
    right. right. right. right. exists bad. exact Hbad.
Qed.

End BlockProperties.

Section TransactionProperties.

Context {L : FlowLib}.
Variable s : Server.

(** ** Transaction results *)

Lemma GetTransactionResult_inv :
  forall (in_Id : bytes) (resp : access_TransactionResultResponse),
    GetTransactionResult s in_Id = Ok resp ->
    exists result h header last events,
      Result (index s) (HashToID in_Id) = Success result /\
      HeightForTransaction (index s) (HashToID in_Id) = Success h /\
      Header (index s) h = Success header /\
      Last (index s) = Success last /\
      Events (index s) h [] = Success events /\
      resp = {| TransactionResultResponse_Status :=
                  if h >? last then TransactionStatus_EXECUTED else TransactionStatus_SEALED;
                TransactionResultResponse_StatusCode :=
                  if String.eqb (ErrorMessage result) "" then 1 else 0;
                TransactionResultResponse_ErrorMessage := ErrorMessage result;
                TransactionResultResponse_Events := EventsToMessages events;
                TransactionResultResponse_BlockId := slice_of (Header_ID header) |}.
Proof.
  intros in_Id resp H. unfold GetTransactionResult in H. step_in H.
  destruct (Result (index s) (HashToID in_Id)) as [result | e] eqn:Eresult;
    step_in H; try discriminate H.
  destruct (HeightForTransaction (index s) (HashToID in_Id)) as [h | e] eqn:Eh;
    step_in H; try discriminate H.
  destruct (Header (index s) h) as [header | e] eqn:Eheader;
    step_in H; try discriminate H.
  destruct (Last (index s)) as [last | e] eqn:Elast;
    step_in H; try discriminate H.
  destruct (Events (index s) h []) as [events | e] eqn:Eevents;
    step_in H; try discriminate H.
  injection H as <-.
  exists result, h, header, last, events. repeat split; assumption || reflexivity.
Qed.

(** X5.  A successful [GetTransactionResult] hands on the stored error
    message unchanged, reports status code 1 exactly when that message is
    empty and 0 otherwise, and names the block by the ID of the header
    stored at the transaction's height. *)
Theorem GetTransactionResult_status_code :
  forall (in_Id : bytes) (resp : access_TransactionResultResponse),
    GetTransactionResult s in_Id = Ok resp ->
    exists result h header,
      Result (index s) (HashToID in_Id) = Success result /\
      HeightForTransaction (index s) (HashToID in_Id) = Success h /\
      Header (index s) h = Success header /\
      TransactionResultResponse_ErrorMessage resp = ErrorMessage result /\
      (TransactionResultResponse_StatusCode resp = 1 <-> ErrorMessage result = "") /\
      (TransactionResultResponse_StatusCode resp = 0 <-> ErrorMessage result <> "") /\
      TransactionResultResponse_BlockId resp = slice_of (Header_ID header).
Proof.
  intros in_Id resp H.
  destruct (GetTransactionResult_inv _ H)
    as (result & h & header & last & events & Hresult & Hh & Hheader & _ & _ & ->).
  exists result, h, header. cbn.
  repeat (split; [assumption || reflexivity |]).
  destruct (String.eqb_spec (ErrorMessage result) "") as [Hempty | Hfull].
  - repeat split; intros; try reflexivity; try assumption; try discriminate.
    contradiction.
  - repeat split; intros; try reflexivity; try assumption; try discriminate.
    contradiction.
Qed.

Lemma GetTransactionResult_height_determines :
  forall (id1 id2 : bytes) (resp1 resp2 : access_TransactionResultResponse),
    GetTransactionResult s id1 = Ok resp1 ->
    GetTransactionResult s id2 = Ok resp2 ->
    HeightForTransaction (index s) (HashToID id1) =
      HeightForTransaction (index s) (HashToID id2) ->
    TransactionResultResponse_Events resp1 = TransactionResultResponse_Events resp2 /\
    TransactionResultResponse_Status resp1 = TransactionResultResponse_Status resp2 /\
    TransactionResultResponse_BlockId resp1 = TransactionResultResponse_BlockId resp2.
Proof.
  intros id1 id2 resp1 resp2 H1 H2 Hsame.
  destruct (GetTransactionResult_inv _ H1)
    as (result1 & h1 & header1 & last1 & events1 & _ & Hh1 & Hheader1 & Hlast1 & Hev1 & ->).
  destruct (GetTransactionResult_inv _ H2)
    as (result2 & h2 & header2 & last2 & events2 & _ & Hh2 & Hheader2 & Hlast2 & Hev2 & ->).
  rewrite Hh1, Hh2 in Hsame. injection Hsame as ->.
  rewrite Hheader1 in Hheader2. injection Hheader2 as ->.
  rewrite Hlast1 in Hlast2. injection Hlast2 as ->.
  rewrite Hev1 in Hev2. injection Hev2 as ->.
  cbn. repeat split; reflexivity.
Qed.

(** X6.  The events of a transaction result are all the events of the
    transaction's height, not the transaction's own: two transactions the
    index places at the same height get the same event list, the same
    status and the same block ID. *)
Theorem GetTransactionResult_same_height :
  forall (id1 id2 : bytes) (resp1 resp2 : access_TransactionResultResponse),
    GetTransactionResult s id1 = Ok resp1 ->
    GetTransactionResult s id2 = Ok resp2 ->
    HeightForTransaction (index s) (HashToID id1) =
      HeightForTransaction (index s) (HashToID id2) ->
    TransactionResultResponse_Events resp1 = TransactionResultResponse_Events resp2 /\
    TransactionResultResponse_Status resp1 = TransactionResultResponse_Status resp2 /\
    TransactionResultResponse_BlockId resp1 = TransactionResultResponse_BlockId resp2.
Proof. exact GetTransactionResult_height_determines. Qed.

Lemma transaction_results_loop_in_order :
  forall (transactions : list Identifier)
         (transactionResults out : list access_TransactionResultResponse),
    transaction_results_loop s transactions transactionResults = Ok out ->
    exists responses,
      out = transactionResults ++ responses /\
      Forall2 (fun transaction response =>
                 GetTransactionResult s (IdentifierToMessage transaction) = Ok response)
              transactions responses.
Proof.
  induction transactions as [| transaction rest IH]; intros acc out H;
    cbn [transaction_results_loop] in H; step_in H.
  - injection H as <-. exists []. split; [now rewrite app_nil_r | constructor].
  - destruct (GetTransactionResult s (IdentifierToMessage transaction))
      as [response | e | r] eqn:E; step_in H; try discriminate H.
    apply IH in H. destruct H as (responses & -> & Hall).
    exists (response :: responses). split.
    + rewrite <- app_assoc. reflexivity.
    + constructor; assumption.
Qed.

Lemma GetTransactionResultsByBlockID_inv :
  forall (in_BlockId : bytes) (resp : access_TransactionResultsResponse),
    GetTransactionResultsByBlockID s in_BlockId = Ok resp ->
    exists h transactions,
      HeightForBlock (index s) (HashToID in_BlockId) = Success h /\
      TransactionsByHeight (index s) h = Success transactions /\
      Forall2 (fun transaction response =>
                 GetTransactionResult s (IdentifierToMessage transaction) = Ok response)
              transactions (TransactionResults resp).
Proof.
  intros in_BlockId resp H. unfold GetTransactionResultsByBlockID in H. step_in H.
  destruct (HeightForBlock (index s) (HashToID in_BlockId)) as [h | e] eqn:Eh;
    step_in H; try discriminate H.
  destruct (TransactionsByHeight (index s) h) as [transactions | e] eqn:Etx;
    step_in H; try discriminate H.
  destruct (transaction_results_loop s transactions []) as [responses | e | r] eqn:Eloop;
    step_in H; try discriminate H.
  injection H as <-. cbn.
  apply transaction_results_loop_in_order in Eloop.
  destruct Eloop as (responses' & -> & Hall).
  exists h, transactions. split; [reflexivity |]. split; [exact Etx | exact Hall].
Qed.

(** X7.  A successful [GetTransactionResultsByBlockID] response holds one
    result per transaction the index lists for the block's height, in the
    index's order, each the answer [GetTransactionResult] gives for that
    transaction. *)
Theorem GetTransactionResultsByBlockID_in_order :
  forall (in_BlockId : bytes) (resp : access_TransactionResultsResponse),
    GetTransactionResultsByBlockID s in_BlockId = Ok resp ->
    exists h transactions,
      HeightForBlock (index s) (HashToID in_BlockId) = Success h /\
      TransactionsByHeight (index s) h = Success transactions /\
      Forall2 (fun transaction response =>
                 GetTransactionResult s (IdentifierToMessage transaction) = Ok response)
              transactions (TransactionResults resp).
Proof. exact GetTransactionResultsByBlockID_inv. Qed.

(** X8.  A result returned by [GetTransactionResultByIndex] is one of the
    results of the block and has an event carrying the requested index. *)
Theorem GetTransactionResultByIndex_matching_event :
  forall (in_BlockId : bytes) (in_Index : Z) (result : access_TransactionResultResponse),
    GetTransactionResultByIndex s in_BlockId in_Index = Ok result ->
    exists resp event,
      GetTransactionResultsByBlockID s in_BlockId = Ok resp /\
      In result (TransactionResults resp) /\
      In event (TransactionResultResponse_Events result) /\
      Event_TransactionIndex event = in_Index.
Proof.
  intros in_BlockId in_Index result H. unfold GetTransactionResultByIndex in H.
  destruct (GetTransactionResultsByBlockID s in_BlockId) as [resp | e | r];
    try discriminate H.
  destruct (find (has_event_index in_Index) (TransactionResults resp)) as [found |] eqn:E;
    try discriminate H.
  injection H as <-. apply find_some in E. destruct E as [Hin Hhas].
  unfold has_event_index in Hhas. apply existsb_exists in Hhas.
  destruct Hhas as (event & Hevent & Hindex).
  exists resp, event. repeat split; try assumption. apply Z.eqb_eq. exact Hindex.
Qed.

Lemma Forall2_In_right :
  forall (X Y : Type) (R : X -> Y -> Prop) (xs : list X) (ys : list Y) (y : Y),
    Forall2 R xs ys -> In y ys -> exists x, In x xs /\ R x y.
Proof.
  intros X Y R xs ys y H. induction H as [| x0 y0 xs ys HR _ IH]; intros Hin.
  - destruct Hin.
  - destruct Hin as [<- | Hin].
    + exists x0. split; [left; reflexivity | exact HR].
    + destruct (IH Hin) as (x & Hx & HRx). exists x. split; [right; exact Hx | exact HRx].
Qed.

(** X9.  On an index that places every transaction it lists for a height
    at one height, [GetTransactionResultByIndex] returns the result of the
    first transaction of the block whatever the requested index is: every
    result of the block carries the same events, so the first one matches
    whenever any does. *)
Theorem GetTransactionResultByIndex_first_transaction :
  forall (in_BlockId : bytes) (in_Index : Z) (result : access_TransactionResultResponse)
         (h h' : Z) (transactions : list Identifier),
    HeightForBlock (index s) (HashToID in_BlockId) = Success h ->
    TransactionsByHeight (index s) h = Success transactions ->
    (forall transaction, In transaction transactions ->
       HeightForTransaction (index s) (HashToID (IdentifierToMessage transaction)) =
       Success h') ->
    GetTransactionResultByIndex s in_BlockId in_Index = Ok result ->
    exists first rest,
      transactions = first :: rest /\
      GetTransactionResult s (IdentifierToMessage first) = Ok result.
Proof.
  intros in_BlockId in_Index result h h' transactions Hh Htx Hsame H.
  unfold GetTransactionResultByIndex in H.
  destruct (GetTransactionResultsByBlockID s in_BlockId) as [resp | e | r] eqn:Eresp;
    try discriminate H.
  destruct (GetTransactionResultsByBlockID_inv _ Eresp)
    as (h0 & transactions0 & Hh0 & Htx0 & Hall).
  rewrite Hh in Hh0. injection Hh0 as <-.
  rewrite Htx in Htx0. injection Htx0 as <-.
  destruct (find (has_event_index in_Index) (TransactionResults resp)) as [found |] eqn:E;
    try discriminate H.
  injection H as <-.
  destruct Hall as [| first response rest responses Hfirst Hrest].
  - discriminate E.
  - exists first, rest. split; [reflexivity |].
    assert (Hhas : has_event_index in_Index response = true).
    { apply find_some in E. destruct E as [Hin Hhas].
      destruct (@Forall2_In_right _ _ _ (first :: rest) (response :: responses) found
                  (Forall2_cons _ _ Hfirst Hrest) Hin) as (transaction & Htin & Hres).
      destruct (@GetTransactionResult_height_determines _ _ _ _ Hfirst Hres) as (Hevents & _).
      { rewrite (Hsame first (or_introl eq_refl)), (Hsame transaction Htin). reflexivity. }
      unfold has_event_index in *. rewrite Hevents. exact Hhas. }
    cbn in E. rewrite Hhas in E. injection E as <-. exact Hfirst.
Qed.

(** ** Unknown blocks and the latest block *)

(** X10.  A block ID the index cannot resolve is reported as an error
    wrapping the index's error by every endpoint that takes a block ID:
    no header, block or transaction list is made up, and the script
    endpoint does not call the invoker. *)
Theorem unknown_block_id :
  forall (in_BlockId : bytes) (cause : error),
    HeightForBlock (index s) (HashToID in_BlockId) = Failure cause ->
    GetBlockHeaderByID s in_BlockId =
      Err (fmt_Errorf "could not get height for block %x: %w"
                      [ArgBytes (HashToID in_BlockId)] cause) /\
    GetBlockByID s in_BlockId =
      Err (fmt_Errorf "could not get height for block %x: %w"
                      [ArgBytes (HashToID in_BlockId)] cause) /\
    GetTransactionResultsByBlockID s in_BlockId =
      Err (fmt_Errorf "could not get height for block %x: %w"
                      [ArgBytes (HashToID in_BlockId)] cause) /\
    GetTransactionsByBlockID s in_BlockId =
      Err (fmt_Errorf "could not get height for block %x: %w"
                      [ArgBytes (HashToID in_BlockId)] cause) /\
    (forall in_Type before after,
       (forall id, In id before ->
                   exists records, block_ids_loop s (event_types in_Type) [id] [] = Ok records) ->
       GetEventsForBlockIDs s in_Type (before ++ in_BlockId :: after) =
         Err (fmt_Errorf "could not get height of block with ID %x: %w"
                         [ArgBytes in_BlockId] cause)) /\
    (forall in_Script in_Arguments calls,
       ExecuteScriptAtBlockID s in_BlockId in_Script in_Arguments calls =
         (Err (fmt_Errorf "could not get height for block ID %x: %w"
                          [ArgBytes (HashToID in_BlockId)] cause),
          calls)).
Proof.
  intros in_BlockId cause H.
  unfold GetBlockHeaderByID, GetBlockByID, GetTransactionResultsByBlockID,
    GetTransactionsByBlockID, ExecuteScriptAtBlockID.
  step. rewrite H. cbn [check outcome_bind].
  repeat (split; [reflexivity |]).
  split; [| intros; reflexivity].
  intros in_Type before after Hbefore. unfold GetEventsForBlockIDs.
  generalize (@nil access_EventsResponse_Result) as events.
  induction before as [| id rest IH]; intros events.
  - cbn. rewrite H. reflexivity.
  - destruct (Hbefore id (or_introl eq_refl)) as [record Hrecord].
    cbn in Hrecord |- *.
    destruct (HeightForBlock (index s) (HashToID id)) as [hid | e];
      cbn in Hrecord |- *; try discriminate Hrecord.
    destruct (Events (index s) hid (event_types in_Type)) as [ee | e];
      cbn in Hrecord |- *; try discriminate Hrecord.
    destruct (Header (index s) hid) as [header | e];
      cbn in Hrecord |- *; try discriminate Hrecord.
    destruct (ptypes_TimestampProto (Timestamp header)) as [timestamp | e];
      cbn in Hrecord |- *; try discriminate Hrecord.
    apply IH. intros id' Hin. apply Hbefore. right. exact Hin.
Qed.

(** X11.  The latest-block endpoints read [Last] and answer exactly what
    the by-height endpoints answer for that height; the block of
    [GetLatestBlock] is at height [Last], and a script run at the latest
    block reaches the invoker, if at all, at height [Last]. *)
Theorem latest_is_last :
  forall (last : Z),
    Last (index s) = Success last ->
    GetLatestBlock s = GetBlockByHeight s last /\
    GetLatestBlockHeader s = GetBlockHeaderByHeight s last /\
    (forall resp, GetLatestBlock s = Ok resp ->
                  Block_Height (BlockResponse_Block resp) = last) /\
    (forall in_Script in_Arguments calls,
       ExecuteScriptAtLatestBlock s in_Script in_Arguments calls =
         ExecuteScriptAtBlockHeight s last in_Script in_Arguments calls /\
       Forall (fun call => In call calls \/ call_height call = last)
              (snd (ExecuteScriptAtLatestBlock s in_Script in_Arguments calls))).
Proof.
  intros last H.
  assert (Hblock : GetLatestBlock s = GetBlockByHeight s last).
  { unfold GetLatestBlock. step. rewrite H. reflexivity. }
  split; [exact Hblock |].
  split; [unfold GetLatestBlockHeader; step; rewrite H; reflexivity |].
  split.
  - intros resp Hresp. rewrite Hblock in Hresp.
    destruct (GetBlockByHeight_block_fields s _ Hresp) as (header & collIDs & _ & _ & Hheight & _).
    exact Hheight.
  - intros in_Script in_Arguments calls.
    assert (Hscript : ExecuteScriptAtLatestBlock s in_Script in_Arguments calls =
                      ExecuteScriptAtBlockHeight s last in_Script in_Arguments calls).
    { unfold ExecuteScriptAtLatestBlock. rewrite H. reflexivity. }
    split; [exact Hscript |]. rewrite Hscript. unfold ExecuteScriptAtBlockHeight.
    assert (Hold : Forall (fun call => In call calls \/ call_height call = last) calls).
    { apply Forall_forall. intros call Hin. left. exact Hin. }
    destruct (decode_loop in_Arguments []) as [args | e | r]; cbn [snd]; try exact Hold.
    apply Forall_app. split; [exact Hold |].
    constructor; [right; reflexivity | constructor].
Qed.

End TransactionProperties.

Section ScriptAndEventProperties.

Context {L : FlowLib}.
Variable s : Server.

(** ** Scripts *)

Lemma decode_loop_decoded :
  forall (arguments : list bytes) (vals args : list cadence_Value),
    Forall2 (fun arg val => json_Decode arg = Success val) arguments vals ->
    decode_loop arguments args = Ok (args ++ vals).
Proof.
  intros arguments vals args H. revert args.
  induction H as [| arg val arguments vals Hval _ IH]; intros args; cbn.
  - now rewrite app_nil_r.
  - rewrite Hval. cbn. rewrite IH, <- app_assoc. reflexivity.
Qed.

(** X12.  When every argument decodes, [ExecuteScriptAtBlockHeight] calls
    the invoker once, at the requested height, with the script and the
    decoded values in the order of the request; it returns the encoded
    value, or the invoker's or the encoder's error, wrapped. *)
Theorem ExecuteScriptAtBlockHeight_decoded_call :
  forall (h : Z) (in_Script : bytes) (in_Arguments : list bytes)
         (vals : list cadence_Value) (calls : list ScriptCall),
    Forall2 (fun arg val => json_Decode arg = Success val) in_Arguments vals ->
    ExecuteScriptAtBlockHeight s h in_Script in_Arguments calls =
      (match Script (invoker s) h in_Script vals with
       | Failure e => Err (fmt_Errorf "could not execute script: %w" [] e)
       | Success value =>
           match json_Encode value with
           | Failure e => Err (fmt_Errorf "could not encode script result: %w" [] e)
           | Success encoded => Ok {| ExecuteScriptResponse_Value := encoded |}
           end
       end,
       calls ++ [{| call_height := h; call_script := in_Script; call_args := vals |}]).
Proof.
  intros h in_Script in_Arguments vals calls H.
  unfold ExecuteScriptAtBlockHeight.
  rewrite (decode_loop_decoded [] H). cbn [app]. step.
  destruct (Script (invoker s) h in_Script vals) as [value | e]; cbn [check outcome_bind].
  - destruct (json_Encode value); reflexivity.
  - reflexivity.
Qed.

(** X13.  Whatever the request, each script endpoint only appends to the
    log of invoker calls, and appends at most one call. *)
Theorem script_endpoints_call_at_most_once :
  forall (h : Z) (in_BlockId in_Script : bytes) (in_Arguments : list bytes)
         (calls : list ScriptCall),
    (exists added,
       snd (ExecuteScriptAtBlockHeight s h in_Script in_Arguments calls) = calls ++ added /\
       (List.length added <= 1)%nat) /\
    (exists added,
       snd (ExecuteScriptAtBlockID s in_BlockId in_Script in_Arguments calls) =
         calls ++ added /\
       (List.length added <= 1)%nat) /\
    (exists added,
       snd (ExecuteScriptAtLatestBlock s in_Script in_Arguments calls) = calls ++ added /\
       (List.length added <= 1)%nat).
Proof.
  intros h in_BlockId in_Script in_Arguments calls.
  assert (Hheight : forall h',
            exists added,
              snd (ExecuteScriptAtBlockHeight s h' in_Script in_Arguments calls) =
                calls ++ added /\ (List.length added <= 1)%nat).
  { intros h'. unfold ExecuteScriptAtBlockHeight.
    destruct (decode_loop in_Arguments []) as [args | e | r]; cbn [snd].
    - eexists [_]. split; [reflexivity | cbn; lia].
    - exists []. split; [now rewrite app_nil_r | cbn; lia].
    - exists []. split; [now rewrite app_nil_r | cbn; lia]. }
  split; [apply Hheight |]. split.
  - unfold ExecuteScriptAtBlockID.
    destruct (HeightForBlock (index s) (HashToID in_BlockId)) as [h' | e].
    + apply Hheight.
    + exists []. split; [cbn; now rewrite app_nil_r | cbn; lia].
  - unfold ExecuteScriptAtLatestBlock.
    destruct (Last (index s)) as [h' | e].
    + apply Hheight.
    + exists []. split; [cbn; now rewrite app_nil_r | cbn; lia].
Qed.

(** ** Events *)

(** X14.  A range whose end is below its start is answered with an empty
    response, not an error, and without a lookup: the first test of the
    loop condition fails whatever the index holds. *)
Theorem GetEventsForHeightRange_inverted :
  forall (fuel : nat) (in_Type : string) (in_StartHeight in_EndHeight : Z),
    in_EndHeight < in_StartHeight ->
    GetEventsForHeightRange s (S fuel) in_Type in_StartHeight in_EndHeight =
      Some (Ok {| Results := [] |}).
Proof.
  intros fuel in_Type in_StartHeight in_EndHeight H.
  unfold GetEventsForHeightRange. rewrite height_range_loop_unfold.
  destruct (Z.leb_spec in_StartHeight in_EndHeight); [lia | reflexivity].
Qed.

Lemma height_range_loop_first_failure :
  forall (n : nat) types in_EndHeight height failing events e,
    0 <= height ->
    height + Z.of_nat n = failing ->
    failing <= in_EndHeight ->
    failing <= MaxUint64 ->
    (forall h, height <= h < failing ->
               exists record, height_range_body s types h = Ok record) ->
    height_range_body s types failing = Err e ->
    height_range_loop s (S n) types in_EndHeight height events = Some (Err e).
Proof.
  induction n as [| n IH];
    intros types in_EndHeight height failing events e Hpos Hn Hend Hmax Hall Hfail;
    rewrite height_range_loop_unfold;
    (destruct (Z.leb_spec height in_EndHeight); [| lia]).
  - replace height with failing by lia. rewrite Hfail. reflexivity.
  - destruct (Hall height ltac:(lia)) as [record ->].
    rewrite uint64_incr_below_max by lia.
    apply IH with (failing := failing); try lia; try assumption.
    intros h Hh. apply Hall. lia.
Qed.

(** X15.  A range query is all or nothing: when the heights from the
    start up to some height of the range are answered and that height is
    not, the query returns that height's error and none of the records
    gathered before it. *)
Theorem GetEventsForHeightRange_first_failure :
  forall (in_Type : string) (in_StartHeight in_EndHeight failing : Z) (e : error),
    0 <= in_StartHeight <= failing ->
    failing <= in_EndHeight ->
    failing <= MaxUint64 ->
    (forall h, in_StartHeight <= h < failing ->
               exists record, height_range_body s (event_types in_Type) h = Ok record) ->
    height_range_body s (event_types in_Type) failing = Err e ->
    exists fuel,
      GetEventsForHeightRange s fuel in_Type in_StartHeight in_EndHeight = Some (Err e).
Proof.
  intros in_Type in_StartHeight in_EndHeight failing e Hstart Hend Hmax Hall Hfail.
  exists (S (Z.to_nat (failing - in_StartHeight))). unfold GetEventsForHeightRange.
  apply height_range_loop_first_failure with (failing := failing);
    try lia; assumption.
Qed.

Lemma block_ids_loop_bodies :
  forall (types : list string) (blockIds : list bytes)
         (events out : list access_EventsResponse_Result),
    block_ids_loop s types blockIds events = Ok out ->
    exists records,
      out = events ++ records /\
      Forall2 (fun id record =>
                 exists h byHeight,
                   HeightForBlock (index s) (HashToID id) = Success h /\
                   height_range_body s types h = Ok byHeight /\
                   record = {| Result_BlockId := slice_of (HashToID id);
                               Result_BlockHeight := Result_BlockHeight byHeight;
                               Result_BlockTimestamp := Result_BlockTimestamp byHeight;
                               Result_Events := Result_Events byHeight |})
              blockIds records.
Proof.
  intros types. induction blockIds as [| id rest IH]; intros events out H;
    cbn [block_ids_loop] in H; step_in H.
  - injection H as <-. exists []. split; [now rewrite app_nil_r | constructor].
  - destruct (HeightForBlock (index s) (HashToID id)) as [h | e] eqn:Eh;
      step_in H; try discriminate H.
    destruct (Events (index s) h types) as [ee | e] eqn:Eee;
      step_in H; try discriminate H.
    destruct (Header (index s) h) as [header | e] eqn:Eheader;
      step_in H; try discriminate H.
    destruct (ptypes_TimestampProto (Timestamp header)) as [timestamp | e] eqn:Ets;
      step_in H; try discriminate H.
    apply IH in H. destruct H as (records & -> & Hall).
    eexists (_ :: records). split.
    + rewrite <- app_assoc. reflexivity.
    + constructor; [| exact Hall].
      exists h. eexists. split; [exact Eh |]. split.
      * unfold height_range_body. step. rewrite Eee. cbn [check outcome_bind].
        rewrite Eheader. cbn [check outcome_bind]. rewrite Ets. reflexivity.
      * reflexivity.
Qed.

(** X16.  Each record of a successful [GetEventsForBlockIDs] response is
    the record a range query produces for the height the index resolves
    the block ID to (same height, timestamp and events), except for its
    block ID: that is the ID of the request, not the ID of the stored
    header. *)
Theorem GetEventsForBlockIDs_records :
  forall (in_Type : string) (in_BlockIds : list bytes) (resp : access_EventsResponse),
    GetEventsForBlockIDs s in_Type in_BlockIds = Ok resp ->
    Forall2 (fun id record =>
               exists h byHeight,
                 HeightForBlock (index s) (HashToID id) = Success h /\
                 height_range_body s (event_types in_Type) h = Ok byHeight /\
                 record = {| Result_BlockId := slice_of (HashToID id);
                             Result_BlockHeight := Result_BlockHeight byHeight;
                             Result_BlockTimestamp := Result_BlockTimestamp byHeight;
                             Result_Events := Result_Events byHeight |})
            in_BlockIds (Results resp).
Proof.
  intros in_Type in_BlockIds resp H. unfold GetEventsForBlockIDs in H. step_in H.
  destruct (block_ids_loop s (event_types in_Type) in_BlockIds []) as [events | e | r] eqn:E;
    step_in H; try discriminate H.
  injection H as <-. cbn.
  apply block_ids_loop_bodies in E. destruct E as (records & -> & Hall). exact Hall.
Qed.

(** ** Collections *)

Lemma transaction_ids_loop_map :
  forall (txIDs : list Identifier) (TransactionIds : list bytes),
    transaction_ids_loop txIDs TransactionIds = TransactionIds ++ map IDToHash txIDs.
Proof.
  induction txIDs as [| txID rest IH]; intros TransactionIds; cbn.
  - now rewrite app_nil_r.
  - rewrite IH, <- app_assoc. reflexivity.
Qed.

(** X17.  [GetCollectionByID] answers with a collection exactly when the
    index holds one under the requested ID; the response repeats the ID
    as it was sent and lists the collection's transaction IDs in the
    stored order, as many as are stored. *)
Theorem GetCollectionByID_lists_transactions :
  forall (in_Id : bytes) (resp : access_CollectionResponse),
    GetCollectionByID s in_Id = Ok resp <->
    exists collection,
      Collection (index s) (HashToID in_Id) = Success collection /\
      resp = {| CollectionResponse_Collection :=
                  {| Collection_Id := in_Id;
                     Collection_TransactionIds := map IDToHash (Transactions collection) |} |}.
Proof.
  intros in_Id resp. unfold GetCollectionByID. step.
  destruct (Collection (index s) (HashToID in_Id)) as [collection | e];
    cbn [check outcome_bind]; rewrite ?transaction_ids_loop_map; cbn [app]; split.
  - intros H. injection H as <-. exists collection. split; reflexivity.
  - intros (collection' & Hc & ->). injection Hc as <-. reflexivity.
  - intros H. discriminate H.
  - intros (collection' & Hc & _). discriminate Hc.
Qed.

End ScriptAndEventProperties.

Section AccountProperties.

Context {L : FlowLib} {A : AccountLib}.
Variable s : Server.
Variable accounts : AccountInvoker.

(** ** Accounts *)

(** X18.  [GetAccount] answers with an account exactly when [Last] is
    known, the invoker finds the account at that height and the account
    converts to a message; when it fails, its error is the error of
    [GetAccountAtLatestBlock], not wrapped again. *)
Theorem GetAccount_at_last :
  forall (in_Address : bytes),
    (forall resp,
       GetAccount s accounts in_Address = Ok resp <->
       exists last account accountMsg,
         Last (index s) = Success last /\
         Account accounts last (BytesToAddress in_Address) = Success account /\
         AccountToMessage account = Success accountMsg /\
         resp = {| GetAccountResponse_Account := accountMsg |}) /\
    (forall e,
       GetAccount s accounts in_Address = Err e <->
       GetAccountAtLatestBlock s accounts in_Address = Err e).
Proof.
  intros in_Address.
  unfold GetAccount, GetAccountAtLatestBlock, GetAccountAtBlockHeight. step.
  destruct (Last (index s)) as [last | e0] eqn:Elast; cbn [check outcome_bind].
  - destruct (Account accounts last (BytesToAddress in_Address)) as [account | e1] eqn:Eacc;
      cbn [check outcome_bind].
    + destruct (AccountToMessage account) as [accountMsg | e2] eqn:Emsg;
        cbn [check outcome_bind].
      * split.
        -- intros resp. split.
           ++ intros H. injection H as <-. exists last, account, accountMsg.
              repeat split; assumption || reflexivity.
           ++ intros (last' & account' & msg' & Hl & Ha & Hm & ->).
              injection Hl as <-. rewrite Eacc in Ha. injection Ha as <-.
              rewrite Emsg in Hm. injection Hm as <-. reflexivity.
        -- intros e. split; intros H; discriminate H.
      * split.
        -- intros resp. split; [intros H; discriminate H |].
           intros (last' & account' & msg' & Hl & Ha & Hm & _).
           injection Hl as <-. rewrite Eacc in Ha. injection Ha as <-.
           rewrite Emsg in Hm. discriminate Hm.
        -- intros e. split; intros H; injection H as <-; reflexivity.
    + split.
      * intros resp. split; [intros H; discriminate H |].
        intros (last' & account' & msg' & Hl & Ha & _).
        injection Hl as <-. rewrite Eacc in Ha. discriminate Ha.
      * intros e. split; intros H; injection H as <-; reflexivity.
  - split.
    + intros resp. split; [intros H; discriminate H |].
      intros (last' & account' & msg' & Hl & _). discriminate Hl.
    + intros e. split; intros H; injection H as <-; reflexivity.
Qed.

End AccountProperties.

(** * Properties of the validator *)

Section ValidatorProperties.

Context {A : AccountLib}.
Variable ExecuteScriptResponse_String : access_ExecuteScriptResponse -> string.
Variable AccountResponse_String : access_AccountResponse -> string.
Variable a : Validator.APIValidator.

(** X19.  The comparison reports success exactly when all six calls are
    answered and, for each of the three endpoints, the access node's
    answer and the archive node's answer read the same. *)
Theorem CheckAPIResults_succeeds_iff :
  fst (Validator.CheckAPIResults ExecuteScriptResponse_String AccountResponse_String a) = None
  <->
  exists r1 r1' r2 r2' r3 r3',
    Validator.access_byID a = Success r1 /\ Validator.archive_byID a = Success r1' /\
    ExecuteScriptResponse_String r1 = ExecuteScriptResponse_String r1' /\
    Validator.access_byHeight a = Success r2 /\ Validator.archive_byHeight a = Success r2' /\
    ExecuteScriptResponse_String r2 = ExecuteScriptResponse_String r2' /\
    Validator.access_account a = Success r3 /\ Validator.archive_account a = Success r3' /\
    AccountResponse_String r3 = AccountResponse_String r3'.
Proof.
  run_cases ExecuteScriptResponse_String AccountResponse_String a;
    split; intros H; try discriminate H;
    try (destruct H as (x1 & x1' & x2 & x2' & x3 & x3' &
                        H1 & H1' & HQ1 & H2 & H2' & HQ2 & H3 & H3' & HQ3);
         try discriminate H1; try discriminate H1';
         try discriminate H2; try discriminate H2';
         try discriminate H3; try discriminate H3';
         try (injection H1 as <-; injection H1' as <-; contradiction);
         try (injection H2 as <-; injection H2' as <-; contradiction);
         try (injection H3 as <-; injection H3' as <-; contradiction)).
  - exists r1, r1', r2, r2', r3, r3'. repeat split; assumption || reflexivity.
  - reflexivity.
Qed.

(** X20.  The calls of a comparison are made in one fixed order, each
    endpoint first on the access node and then on the archive node, and
    the comparison stops at the first failure: the calls made are an
    initial part of the schedule of six, the whole of it when the
    comparison succeeds, and at most two when the first endpoint fails. *)
Theorem CheckAPIResults_schedule :
  (exists n,
     (1 <= n <= 6)%nat /\
     Validator.rpcs_of
       (snd (Validator.CheckAPIResults ExecuteScriptResponse_String AccountResponse_String a))
     = firstn n Validator.full_schedule) /\
  (fst (Validator.CheckAPIResults ExecuteScriptResponse_String AccountResponse_String a) = None ->
   Validator.rpcs_of
     (snd (Validator.CheckAPIResults ExecuteScriptResponse_String AccountResponse_String a))
   = Validator.full_schedule) /\
  (forall err,
     fst (Validator.checkExecuteScriptAtBlockID ExecuteScriptResponse_String a) = Some err ->
     (List.length
        (Validator.rpcs_of
           (snd (Validator.CheckAPIResults ExecuteScriptResponse_String
                                           AccountResponse_String a))) <= 2)%nat).
Proof.
  run_cases ExecuteScriptResponse_String AccountResponse_String a;
    (split;
     [ first [ exists 1%nat; split; [lia | reflexivity]
             | exists 2%nat; split; [lia | reflexivity]
             | exists 3%nat; split; [lia | reflexivity]
             | exists 4%nat; split; [lia | reflexivity]
             | exists 5%nat; split; [lia | reflexivity]
             | exists 6%nat; split; [lia | reflexivity] ]
     | split;
       [ intros H; first [discriminate H | reflexivity]
       | intros err H; first [discriminate H | cbn; lia] ] ]).
Qed.

Lemma CheckAPIResults_errors :
  fst (Validator.CheckAPIResults ExecuteScriptResponse_String AccountResponse_String a) = None
  \/
  exists stage inner,
    fst (Validator.CheckAPIResults ExecuteScriptResponse_String AccountResponse_String a) =
      Some (fmt_Errorf stage [] inner) /\
    ((exists msg rpc_err,
        inner = fmt_Errorf msg [] rpc_err /\ Validator.call_failed a rpc_err) \/
     (exists msg, inner = fmt_Errorf_nil msg [] /\ errors_Unwrap inner = None)).
Proof.
  run_cases ExecuteScriptResponse_String AccountResponse_String a;
    first
      [ left; reflexivity
      | right; do 2 eexists; split; [reflexivity |];
        first
          [ right; eexists; split; reflexivity
          | left; do 2 eexists; split; [reflexivity |];
            unfold Validator.call_failed;
            fold (Validator.access_byID a) (Validator.archive_byID a)
                 (Validator.access_byHeight a) (Validator.archive_byHeight a)
                 (Validator.access_account a) (Validator.archive_account a);
            auto 10 ] ].
Qed.

(** X21.  Every error of the comparison names the failed stage and wraps
    one of two things: the error of a remote call that failed, wrapped
    once more, or a report of unequal results that has no cause. *)
Theorem CheckAPIResults_error_kinds :
  fst (Validator.CheckAPIResults ExecuteScriptResponse_String AccountResponse_String a) = None
  \/
  exists stage inner,
    fst (Validator.CheckAPIResults ExecuteScriptResponse_String AccountResponse_String a) =
      Some (fmt_Errorf stage [] inner) /\
    ((exists msg rpc_err,
        inner = fmt_Errorf msg [] rpc_err /\ Validator.call_failed a rpc_err) \/
     (exists msg, inner = fmt_Errorf_nil msg [] /\ errors_Unwrap inner = None)).
Proof. exact CheckAPIResults_errors. Qed.


End ValidatorProperties.

Section MoreEventAndResultProperties.

Context {L : FlowLib}.
Variable s : Server.

(** X23.  For a non-empty range that ends below the largest [uint64]
    height and whose heights are all answered, [GetEventsForHeightRange]
    returns a response with [end - start + 1] records: the record of each
    height of the range, in increasing order of height. *)
Theorem GetEventsForHeightRange_counts :
  forall in_Type in_StartHeight in_EndHeight,
    0 <= in_StartHeight <= in_EndHeight ->
    in_EndHeight < MaxUint64 ->
    (forall h, in_StartHeight <= h <= in_EndHeight ->
               exists record, height_range_body s (event_types in_Type) h = Ok record) ->
    exists fuel records,
      GetEventsForHeightRange s fuel in_Type in_StartHeight in_EndHeight =
        Some (Ok {| Results := records |}) /\
      Z.of_nat (List.length records) = in_EndHeight - in_StartHeight + 1 /\
      Forall2 (fun h record =>
                 height_range_body s (event_types in_Type) h = Ok record /\
                 Result_BlockHeight record = h)
              (heights_from in_StartHeight (Z.to_nat (in_EndHeight - in_StartHeight + 1)))
              records.
Proof.
  intros in_Type in_StartHeight in_EndHeight Hrange Hmax Hall.
  destruct (@GetEventsForHeightRange_complete L s in_Type in_StartHeight in_EndHeight
              Hrange Hmax Hall) as (fuel & records & Hrun & Hlen & Hrecords).
  exists fuel, records. split; [exact Hrun |]. split; [exact Hlen |].
  clear - Hrecords. induction Hrecords as [| h record hs records Hbody _ IH]; constructor.
  - split; [exact Hbody | eapply height_range_body_height; exact Hbody].
  - exact IH.
Qed.

(** X24.  [GetEventsForHeightRange] returns, with a response or an
    error, for every range that ends below the largest [uint64] height,
    and for every range at all when the index refuses some height: the
    loop reaches the end of the range or the refused height. *)
Theorem GetEventsForHeightRange_returns :
  forall (in_Type : string) (in_StartHeight in_EndHeight : Z),
    is_uint64 in_StartHeight ->
    in_EndHeight < MaxUint64 \/
    (exists refused,
       is_uint64 refused /\
       forall record, height_range_body s (event_types in_Type) refused <> Ok record) ->
    exists fuel answer,
      GetEventsForHeightRange s fuel in_Type in_StartHeight in_EndHeight = Some answer.
Proof.
  intros in_Type in_StartHeight in_EndHeight Hstart [Hbelow | (refused & Hrefused & Hbody)].
  - destruct (@height_range_loop_returns_below_max L s
                (Z.to_nat (in_EndHeight + 1 - in_StartHeight)) (event_types in_Type)
                in_EndHeight in_StartHeight [])
      as [answer Hanswer]; try assumption.
    + unfold is_uint64 in Hstart. lia.
    + lia.
    + eexists _, answer. exact Hanswer.
  - eapply GetEventsForHeightRange_returns_at_refusal; eassumption.
Qed.

(** X25.  When the results of the block are resolved and none of them
    has an event carrying the requested index,
    [GetTransactionResultByIndex] returns an error that has no cause:
    the error it wraps is nil. *)
Theorem GetTransactionResultByIndex_no_match :
  forall (in_BlockId : bytes) (in_Index : Z) (resp : access_TransactionResultsResponse),
    GetTransactionResultsByBlockID s in_BlockId = Ok resp ->
    Forall (fun result =>
              Forall (fun event => Event_TransactionIndex event <> in_Index)
                     (TransactionResultResponse_Events result))
           (TransactionResults resp) ->
    exists e,
      GetTransactionResultByIndex s in_BlockId in_Index = Err e /\
      errors_Unwrap e = None.
Proof.
  intros in_BlockId in_Index resp Hresp Hnone.
  unfold GetTransactionResultByIndex. rewrite Hresp.
  destruct (find (has_event_index in_Index) (TransactionResults resp)) as [found |] eqn:E.
  - exfalso. apply find_some in E. destruct E as [Hin Hhas].
    rewrite Forall_forall in Hnone. specialize (Hnone found Hin).
    unfold has_event_index in Hhas. apply existsb_exists in Hhas.
    destruct Hhas as (event & Hevent & Hindex).
    rewrite Forall_forall in Hnone. apply (Hnone event Hevent).
    apply Z.eqb_eq. exact Hindex.
  - eexists. split; reflexivity.
Qed.

End MoreEventAndResultProperties.

(** * The properties on the small index *)

#[local] Existing Instance Demo.lib.

(** The scenario of the specification: heights 100 to 105 with [Last] at
    103; a transaction at height 104 is EXECUTED, one at 102 is SEALED. *)
Example transaction_at_104_is_executed :
  exists resp,
    GetTransactionResult Demo.server [Byte.x68; Byte.x01] = Ok resp /\
    TransactionResultResponse_Status resp = TransactionStatus_EXECUTED.
Proof. eexists. split; reflexivity. Qed.

Example transaction_at_102_is_sealed :
  exists resp,
    GetTransactionResult Demo.server [Byte.x66; Byte.x01] = Ok resp /\
    TransactionResultResponse_Status resp = TransactionStatus_SEALED.
Proof. eexists. split; reflexivity. Qed.

Lemma GetTransactionResult_status_witness :
  exists resp,
    GetTransactionResult Demo.server [Byte.x68; Byte.x01] = Ok resp /\
    exists h last,
      HeightForTransaction (index Demo.server) (HashToID [Byte.x68; Byte.x01]) = Success h /\
      Last (index Demo.server) = Success last /\
      (TransactionResultResponse_Status resp = TransactionStatus_SEALED <-> h <= last) /\
      (TransactionResultResponse_Status resp = TransactionStatus_EXECUTED <-> h > last) /\
      (TransactionResultResponse_Status resp = TransactionStatus_SEALED \/
       TransactionResultResponse_Status resp = TransactionStatus_EXECUTED).
Proof.
  eexists. split.
  - reflexivity.
  - apply (@GetTransactionResult_status Demo.lib Demo.server [Byte.x68; Byte.x01]).
    reflexivity.
Defined.

Lemma by_ID_agrees_with_by_height_witness :
  exists header,
    Header (index Demo.server) 102 = Success header /\
    GetBlockByID Demo.server (slice_of (Header_ID header)) = GetBlockByHeight Demo.server 102 /\
    GetBlockHeaderByID Demo.server (slice_of (Header_ID header)) =
      GetBlockHeaderByHeight Demo.server 102.
Proof.
  apply (@by_ID_agrees_with_by_height Demo.lib Demo.server) with (first := 100) (last := 103).
  - intros first last h Hfirst Hlast Hrange.
    injection Hfirst as <-. injection Hlast as <-.
    assert (Hh : h = 100 \/ h = 101 \/ h = 102 \/ h = 103) by lia.
    destruct Hh as [-> | [-> | [-> | ->]]]; eexists; split; reflexivity.
  - reflexivity.
  - reflexivity.
  - lia.
Defined.

Lemma block_seals_unsigned_witness :
  exists resp,
    GetBlockByHeight Demo.server 102 = Ok resp /\
    (exists h, seals_of_height (index Demo.server) h
                 (Block_BlockSeals (BlockResponse_Block resp))) /\
    Forall (fun seal => BlockSeal_ExecutionReceiptSignatures seal = [])
           (Block_BlockSeals (BlockResponse_Block resp)).
Proof.
  eexists. split.
  - reflexivity.
  - apply (@block_seals_unsigned Demo.lib Demo.server).
    left. exists 102. reflexivity.
Defined.

Lemma ExecuteScriptAtBlockHeight_decode_failure_witness :
  exists cause,
    ExecuteScriptAtBlockHeight Demo.server 102 [] [[Byte.x01]; []; [Byte.x02]] [] =
    (Err (fmt_Errorf "could not decode script argument: %w" [] cause), []).
Proof.
  apply (@ExecuteScriptAtBlockHeight_decode_failure Demo.lib Demo.server).
  exists [], (errors_New "invalid JSON-Cadence structure").
  split; [right; left; reflexivity | reflexivity].
Defined.

(** With arguments that decode, the same request reaches the invoker. *)
Example ExecuteScriptAtBlockHeight_decoded :
  ExecuteScriptAtBlockHeight Demo.server 102 [] [[Byte.x01]; [Byte.x02]] [] =
  (Ok {| ExecuteScriptResponse_Value := [Byte.x03] |},
   [{| call_height := 102; call_script := []; call_args := [1; 2] |}]).
Proof. reflexivity. Qed.

Lemma GetTransactionsByBlockID_appends_system_transaction_witness :
  exists resp,
    GetTransactionsByBlockID Demo.server [Byte.x66] = Ok resp /\
    exists height transactions bodies headerResp header chain systemTx,
      HeightForBlock (index Demo.server) (HashToID [Byte.x66]) = Success height /\
      TransactionsByHeight (index Demo.server) height = Success transactions /\
      Forall2 (fun id body =>
                 Transaction (index Demo.server) (HashToID (IdentifierToMessage id)) =
                 Success body)
              transactions bodies /\
      GetBlockHeaderByHeight Demo.server height = Ok headerResp /\
      MessageToBlockHeader (BlockHeaderResponse_Block headerResp) = Success header /\
      ChainID_Chain (ChainID header) = Some chain /\
      SystemChunkTransaction chain = Success systemTx /\
      TransactionsResponse_Transactions resp =
        map TransactionToMessage bodies ++ [TransactionToMessage systemTx] /\
      List.length (TransactionsResponse_Transactions resp) = S (List.length transactions).
Proof.
  eexists. split.
  - reflexivity.
  - apply (@GetTransactionsByBlockID_appends_system_transaction Demo.lib Demo.server [Byte.x66]).
    reflexivity.
Defined.

(** Blocks asked for in the order 105, 100 are answered in that order. *)
Lemma GetEventsForBlockIDs_in_request_order_witness :
  exists resp,
    GetEventsForBlockIDs Demo.server "" [[Byte.x69]; [Byte.x64]] = Ok resp /\
    map Result_BlockHeight (Results resp) = [105; 100] /\
    List.length (Results resp) = List.length [[Byte.x69]; [Byte.x64]] /\
    map Result_BlockId (Results resp) =
      map (fun id => slice_of (HashToID id)) [[Byte.x69]; [Byte.x64]] /\
    Forall2 (record_of_block_id (index Demo.server)) [[Byte.x69]; [Byte.x64]] (Results resp).
Proof.
  eexists. split; [reflexivity |]. split; [reflexivity |].
  apply (@GetEventsForBlockIDs_in_request_order Demo.lib Demo.server "").
  reflexivity.
Defined.

(** A range with a gap: heights 101 and 103 have no event and still have
    their record. *)
Example GetEventsForHeightRange_101_103 :
  exists resp,
    GetEventsForHeightRange Demo.server 4 "" 101 103 = Some (Ok resp) /\
    map Result_BlockHeight (Results resp) = [101; 102; 103] /\
    map (fun record => List.length (Result_Events record)) (Results resp) = [0; 1; 0]%nat.
Proof. eexists. repeat split; reflexivity. Qed.

(** C4.  On the small index, [GetTransactionResultsByBlockID] fails for a
    block ID the index does not hold, and [GetTransactionResultByIndex]
    for the same block does not return that failure: it panics. *)
Theorem GetTransactionResultByIndex_absent_block :
  GetTransactionResultsByBlockID Demo.server [Byte.x00] =
    Err (fmt_Errorf "could not get height for block %x: %w" [ArgBytes [Byte.x00]]
                    Demo.not_found) /\
  GetTransactionResultByIndex Demo.server [Byte.x00] 0 = Panic nil_dereference.
Proof.
  assert (H : GetTransactionResultsByBlockID Demo.server [Byte.x00] =
              Err (fmt_Errorf "could not get height for block %x: %w" [ArgBytes [Byte.x00]]
                              Demo.not_found)) by reflexivity.
  split; [exact H |].
  exact (GetTransactionResultByIndex_failure_panics Demo.server [Byte.x00] 0 H).
Qed.

(** C3.  On the index whose only block is at the largest [uint64] height,
    the range from that height to itself has its one lookup answered, yet
    the query never returns a response: after the record of that height
    the counter wraps to 0, the loop goes on, and the header of height 0
    is missing. *)
Theorem GetEventsForHeightRange_top_height :
  (exists record,
     height_range_body Demo.top_server (event_types "") MaxUint64 = Ok record) /\
  GetEventsForHeightRange Demo.top_server 2 "" MaxUint64 MaxUint64 =
    Some (Err (fmt_Errorf "could not get header at height %d: %w" [ArgUint 0]
                          Demo.not_found)) /\
  forall fuel,
    GetEventsForHeightRange Demo.top_server fuel "" MaxUint64 MaxUint64 = None \/
    GetEventsForHeightRange Demo.top_server fuel "" MaxUint64 MaxUint64 =
      Some (Err (fmt_Errorf "could not get header at height %d: %w" [ArgUint 0]
                            Demo.not_found)).
Proof.
  assert (H2 : GetEventsForHeightRange Demo.top_server 2 "" MaxUint64 MaxUint64 =
               Some (Err (fmt_Errorf "could not get header at height %d: %w" [ArgUint 0]
                                     Demo.not_found))) by (vm_compute; reflexivity).
  split; [eexists; vm_compute; reflexivity |].
  split; [exact H2 |].
  intros [| [| fuel]].
  - left. reflexivity.
  - left. vm_compute. reflexivity.
  - right. unfold GetEventsForHeightRange in *.
    eapply height_range_loop_fuel_mono; [exact H2 | lia].
Qed.

(** C10.  On an index that answers at every height, the range from 0 to
    the largest [uint64] height never returns: whatever the number of
    loop tests allowed, no response and no error is reached. *)
Theorem GetEventsForHeightRange_never_returns :
  forall fuel in_Type,
    GetEventsForHeightRange Demo.total_server fuel in_Type 0 MaxUint64 = None.
Proof.
  intros fuel in_Type. unfold GetEventsForHeightRange.
  apply height_range_loop_never_returns.
  - intros h _. eexists. reflexivity.
  - unfold is_uint64. split; [lia | discriminate].
Qed.

(** * The further properties on the small indexes *)

#[local] Existing Instance Demo2.accountLib.

Lemma GetBlockByHeight_block_witness :
  exists resp,
    GetBlockByHeight Demo2.server 102 = Ok resp /\
    exists header collIDs,
      Header (index Demo2.server) 102 = Success header /\
      CollectionsByHeight (index Demo2.server) 102 = Success collIDs /\
      Block_Height (BlockResponse_Block resp) = 102 /\
      Block_Id (BlockResponse_Block resp) = slice_of (Header_ID header) /\
      Block_ParentId (BlockResponse_Block resp) = slice_of (ParentID header) /\
      Block_Timestamp (BlockResponse_Block resp) = timestamppb_New (Timestamp header) /\
      Block_Signatures (BlockResponse_Block resp) = [ParentVoterSigData header] /\
      Forall2 (fun collID entity =>
                 exists guarantee,
                   Guarantee (index Demo2.server) collID = Success guarantee /\
                   entity = {| CollectionGuarantee_CollectionId := IDToHash collID;
                               CollectionGuarantee_Signatures := [Signature guarantee] |})
              collIDs (Block_CollectionGuarantees (BlockResponse_Block resp)).
Proof.
  eexists. split.
  - reflexivity.
  - apply (@GetBlockByHeight_block Demo.lib Demo2.server 102). reflexivity.
Defined.

(** Height 105 lists three seals; the second is not stored. *)
Lemma GetBlockByHeight_first_missing_seal_witness :
  GetBlockByHeight Demo2.server 105 =
    Err (fmt_Errorf "could not get seal with ID %x: %w" [ArgBytes [Byte.x01; Byte.x02]]
                    Demo.not_found).
Proof.
  apply (@GetBlockByHeight_first_missing_seal Demo.lib Demo2.server 105 (Demo.header_at 105)
           [[Byte.x68]] [Byte.x01; Byte.x02] [[Byte.x67]] Demo.not_found).
  - reflexivity.
  - reflexivity.
  - constructor; [eexists; reflexivity | constructor].
  - reflexivity.
Defined.

(** The second transaction of block 102 failed: status code 0. *)
Lemma GetTransactionResult_status_code_witness :
  exists resp,
    GetTransactionResult Demo2.server [Byte.x66; Byte.x02] = Ok resp /\
    TransactionResultResponse_StatusCode resp = 0 /\
    exists result h header,
      Result (index Demo2.server) (HashToID [Byte.x66; Byte.x02]) = Success result /\
      HeightForTransaction (index Demo2.server) (HashToID [Byte.x66; Byte.x02]) = Success h /\
      Header (index Demo2.server) h = Success header /\
      TransactionResultResponse_ErrorMessage resp = ErrorMessage result /\
      (TransactionResultResponse_StatusCode resp = 1 <-> ErrorMessage result = "") /\
      (TransactionResultResponse_StatusCode resp = 0 <-> ErrorMessage result <> "") /\
      TransactionResultResponse_BlockId resp = slice_of (Header_ID header).
Proof.
  eexists. split; [reflexivity |]. split; [reflexivity |].
  apply (@GetTransactionResult_status_code Demo.lib Demo2.server [Byte.x66; Byte.x02]).
  reflexivity.
Defined.

Lemma GetTransactionResult_same_height_witness :
  exists resp1 resp2,
    GetTransactionResult Demo2.server [Byte.x66; Byte.x01] = Ok resp1 /\
    GetTransactionResult Demo2.server [Byte.x66; Byte.x02] = Ok resp2 /\
    TransactionResultResponse_Events resp1 = TransactionResultResponse_Events resp2 /\
    TransactionResultResponse_Status resp1 = TransactionResultResponse_Status resp2 /\
    TransactionResultResponse_BlockId resp1 = TransactionResultResponse_BlockId resp2.
Proof.
  do 2 eexists. split; [reflexivity |]. split; [reflexivity |].
  apply (@GetTransactionResult_same_height Demo.lib Demo2.server
           [Byte.x66; Byte.x01] [Byte.x66; Byte.x02]); reflexivity.
Defined.

Lemma GetTransactionResultsByBlockID_in_order_witness :
  exists resp,
    GetTransactionResultsByBlockID Demo2.server [Byte.x66] = Ok resp /\
    map TransactionResultResponse_StatusCode (TransactionResults resp) = [1; 0] /\
    exists h transactions,
      HeightForBlock (index Demo2.server) (HashToID [Byte.x66]) = Success h /\
      TransactionsByHeight (index Demo2.server) h = Success transactions /\
      Forall2 (fun transaction response =>
                 GetTransactionResult Demo2.server (IdentifierToMessage transaction) =
                 Ok response)
              transactions (TransactionResults resp).
Proof.
  eexists. split; [reflexivity |]. split; [reflexivity |].
  apply (@GetTransactionResultsByBlockID_in_order Demo.lib Demo2.server [Byte.x66]).
  reflexivity.
Defined.

Lemma GetTransactionResultByIndex_matching_event_witness :
  exists result,
    GetTransactionResultByIndex Demo2.server [Byte.x66] 0 = Ok result /\
    exists resp event,
      GetTransactionResultsByBlockID Demo2.server [Byte.x66] = Ok resp /\
      In result (TransactionResults resp) /\
      In event (TransactionResultResponse_Events result) /\
      Event_TransactionIndex event = 0.
Proof.
  eexists. split; [reflexivity |].
  apply (@GetTransactionResultByIndex_matching_event Demo.lib Demo2.server [Byte.x66] 0).
  reflexivity.
Defined.

(** Block 102 holds two transactions; index 0 is answered with the first. *)
Lemma GetTransactionResultByIndex_first_transaction_witness :
  exists result,
    GetTransactionResultByIndex Demo2.server [Byte.x66] 0 = Ok result /\
    exists first rest,
      [[Byte.x66; Byte.x01]; [Byte.x66; Byte.x02]] = first :: rest /\
      GetTransactionResult Demo2.server (IdentifierToMessage first) = Ok result.
Proof.
  eexists. split; [reflexivity |].
  apply (@GetTransactionResultByIndex_first_transaction Demo.lib Demo2.server
           [Byte.x66] 0 _ 102 102 [[Byte.x66; Byte.x01]; [Byte.x66; Byte.x02]]).
  - reflexivity.
  - reflexivity.
  - intros transaction [<- | [<- | []]]; reflexivity.
  - reflexivity.
Defined.

Lemma unknown_block_id_witness :
  GetBlockHeaderByID Demo2.server [Byte.x00] =
    Err (fmt_Errorf "could not get height for block %x: %w"
                    [ArgBytes (HashToID [Byte.x00])] Demo.not_found) /\
  GetEventsForBlockIDs Demo2.server "" [[Byte.x69]; [Byte.x00]; [Byte.x64]] =
    Err (fmt_Errorf "could not get height of block with ID %x: %w"
                    [ArgBytes [Byte.x00]] Demo.not_found).
Proof.
  destruct (@unknown_block_id Demo.lib Demo2.server [Byte.x00] Demo.not_found eq_refl)
    as (Hheader & _ & _ & _ & Hevents & _).
  split; [exact Hheader |].
  apply (Hevents "" [[Byte.x69]] [[Byte.x64]]).
  intros id [<- | []]. eexists. reflexivity.
Defined.

Lemma latest_is_last_witness :
  GetLatestBlock Demo2.server = GetBlockByHeight Demo2.server 103 /\
  GetLatestBlockHeader Demo2.server = GetBlockHeaderByHeight Demo2.server 103.
Proof.
  destruct (@latest_is_last Demo.lib Demo2.server 103 eq_refl) as (Hblock & Hheader & _).
  split; assumption.
Defined.

Lemma ExecuteScriptAtBlockHeight_decoded_call_witness :
  ExecuteScriptAtBlockHeight Demo2.server 102 [Byte.x70] [[Byte.x01]; [Byte.x02]] [] =
    (Ok {| ExecuteScriptResponse_Value := [Byte.x03] |},
     [{| call_height := 102; call_script := [Byte.x70]; call_args := [1; 2] |}]).
Proof.
  apply (@ExecuteScriptAtBlockHeight_decoded_call Demo.lib Demo2.server 102 [Byte.x70]
           [[Byte.x01]; [Byte.x02]] [1; 2] []).
  repeat constructor.
Defined.

Lemma GetEventsForHeightRange_inverted_witness :
  GetEventsForHeightRange Demo.server 1 "" 103 101 = Some (Ok {| Results := [] |}).
Proof.
  apply (@GetEventsForHeightRange_inverted Demo.lib Demo.server 0 "" 103 101). lia.
Defined.

(** Heights 104 and 105 are indexed, 106 is not: the range 104 to 110
    fails at 106. *)
Lemma GetEventsForHeightRange_first_failure_witness :
  exists fuel,
    GetEventsForHeightRange Demo.server fuel "" 104 110 =
      Some (Err (fmt_Errorf "could not get header at height %d: %w" [ArgUint 106]
                            Demo.not_found)).
Proof.
  apply (@GetEventsForHeightRange_first_failure Demo.lib Demo.server "" 104 110 106).
  - lia.
  - lia.
  - unfold MaxUint64. cbn. lia.
  - intros h Hh. assert (Hcases : h = 104 \/ h = 105) by lia.
    destruct Hcases as [-> | ->]; eexists; reflexivity.
  - reflexivity.
Defined.

Lemma GetEventsForBlockIDs_records_witness :
  exists resp,
    GetEventsForBlockIDs Demo.server "" [[Byte.x69]; [Byte.x64]] = Ok resp /\
    Forall2 (fun id record =>
               exists h byHeight,
                 HeightForBlock (index Demo.server) (HashToID id) = Success h /\
                 height_range_body Demo.server (event_types "") h = Ok byHeight /\
                 record = {| Result_BlockId := slice_of (HashToID id);
                             Result_BlockHeight := Result_BlockHeight byHeight;
                             Result_BlockTimestamp := Result_BlockTimestamp byHeight;
                             Result_Events := Result_Events byHeight |})
            [[Byte.x69]; [Byte.x64]] (Results resp).
Proof.
  eexists. split; [reflexivity |].
  apply (@GetEventsForBlockIDs_records Demo.lib Demo.server "").
  reflexivity.
Defined.

(** An account at the latest height, 103: three tokens. *)
Example GetAccount_at_103 :
  GetAccount Demo2.server Demo2.accounts [Byte.xe4; Byte.x67] =
    Ok {| GetAccountResponse_Account := [Byte.x03] |}.
Proof. reflexivity. Qed.

(** Two nodes that agree, two that differ on the balance, and an archive
    node that lags behind. *)
Example validator_agreeing_nodes :
  fst (Validator.CheckAPIResults Demo2.render_script Demo2.render_account
         (Demo2.validator (Demo2.node_with Byte.x05) (Demo2.node_with Byte.x05))) = None.
Proof. reflexivity. Qed.

Example validator_differing_nodes :
  fst (Validator.CheckAPIResults Demo2.render_script Demo2.render_account
         (Demo2.validator (Demo2.node_with Byte.x05) (Demo2.node_with Byte.x06))) =
  Some (fmt_Errorf "unsuccessful checkGetAccountAtBlockHeight comparison: %w" []
          (fmt_Errorf_nil "unequal results! GetAccountAtBlockHeight from access node: %w" [])).
Proof. reflexivity. Qed.

Example validator_lagging_archive :
  Validator.CheckAPIResults Demo2.render_script Demo2.render_account
    (Demo2.validator (Demo2.node_with Byte.x05) Demo2.lagging_node) =
  (Some (fmt_Errorf "unsuccessful ExecuteScriptAtBlockID comparison: %w" []
           (fmt_Errorf "failed to get ExecuteScriptAtBlockID from archive node: %w" []
                       Demo.not_found)),
   [Validator.LogInfo "starting comparison";
    Validator.Rpc Validator.AccessNode Validator.RPC_ExecuteScriptAtBlockID;
    Validator.LogDebug "received GetAccountAtBlockHeight response from AN: %s" "*";
    Validator.Rpc Validator.ArchiveNode Validator.RPC_ExecuteScriptAtBlockID]).
Proof. reflexivity. Qed.


(** Heights 101 to 103 are all answered: three records, 101 first. *)
Lemma GetEventsForHeightRange_counts_witness :
  exists fuel records,
    GetEventsForHeightRange Demo.server fuel "" 101 103 =
      Some (Ok {| Results := records |}) /\
    Z.of_nat (List.length records) = 103 - 101 + 1 /\
    Forall2 (fun h record =>
               height_range_body Demo.server (event_types "") h = Ok record /\
               Result_BlockHeight record = h)
            (heights_from 101 (Z.to_nat (103 - 101 + 1))) records.
Proof.
  apply (@GetEventsForHeightRange_counts Demo.lib Demo.server "" 101 103).
  - lia.
  - unfold MaxUint64. cbn. lia.
  - intros h Hh. assert (Hcases : h = 101 \/ h = 102 \/ h = 103) by lia.
    destruct Hcases as [-> | [-> | ->]]; eexists; reflexivity.
Defined.

(** The largest range on the small index: it fails at height 0. *)
Lemma GetEventsForHeightRange_returns_witness :
  exists fuel answer,
    GetEventsForHeightRange Demo.server fuel "" 0 MaxUint64 = Some answer.
Proof.
  apply (@GetEventsForHeightRange_returns Demo.lib Demo.server "" 0 MaxUint64).
  - unfold is_uint64, MaxUint64. cbn. lia.
  - right. exists 0. split.
    + unfold is_uint64, MaxUint64. cbn. lia.
    + intros record H. discriminate H.
Defined.

(** Block 101 has no event: no index is found in it. *)
Lemma GetTransactionResultByIndex_no_match_witness :
  exists e,
    GetTransactionResultByIndex Demo2.server [Byte.x65] 0 = Err e /\
    errors_Unwrap e = None.
Proof.
  eapply (@GetTransactionResultByIndex_no_match Demo.lib Demo2.server [Byte.x65] 0).
  - reflexivity.
  - repeat constructor.
Defined.
